(** * AI Meeting Summarizer: transcript parsing and the resilient completion client

    A shallow embedding of [utils/transcript_parser.py] and
    [utils/gemini_meeting_api.py].

    Python [str] values are modelled as [string]; a character is a code
    point below 256 (the Latin-1 block), and the character classes used by
    [str.lower], [str.strip] and the [re] module are written out for that
    block.  Library code that is not part of the repository (BeautifulSoup,
    NLTK, the Gemini SDK) enters as an interface. *)

From Stdlib Require Import Bool Arith ZArith QArith Lia List Ascii String.
From Stdlib Require Import DecimalString.
From Stdlib Require Import Permutation.
Import ListNotations.

Open Scope string_scope.
Open Scope list_scope.

(** ** Python string primitives *)

Module Py.

Definition code (c : ascii) : nat := nat_of_ascii c.

Definition between (lo hi : nat) (c : ascii) : bool :=
  (lo <=? code c)%nat && (code c <=? hi)%nat.

(** [str.isspace] on one character; this is also the class [\s]. *)
Definition isspace (c : ascii) : bool :=
  between 9 13 c || between 28 32 c
  || (code c =? 133)%nat || (code c =? 160)%nat.

(** The class [\d]: decimal digits. *)
Definition isdigit (c : ascii) : bool := between 48 57 c.

(** [str.isalnum] on one character. *)
Definition isalnum (c : ascii) : bool :=
  between 48 57 c || between 65 90 c || between 97 122 c
  || (code c =? 170)%nat || between 178 179 c || (code c =? 181)%nat
  || between 185 186 c || between 188 190 c
  || between 192 214 c || between 216 246 c || between 248 255 c.

(** The class [\w]: alphanumerics and the underscore. *)
Definition isword (c : ascii) : bool := isalnum c || (code c =? 95)%nat.

Definition isupper (c : ascii) : bool :=
  between 65 90 c || between 192 214 c || between 216 222 c.

Definition lower_char (c : ascii) : ascii :=
  if isupper c then ascii_of_nat (code c + 32) else c.

Fixpoint map_chars (f : ascii -> ascii) (s : string) : string :=
  match s with
  | EmptyString => EmptyString
  | String c r => String (f c) (map_chars f r)
  end.

(** [s.lower()] *)
Definition lower (s : string) : string := map_chars lower_char s.

Fixpoint filter_chars (p : ascii -> bool) (s : string) : string :=
  match s with
  | EmptyString => EmptyString
  | String c r => if p c then String c (filter_chars p r) else filter_chars p r
  end.

Fixpoint forallb_chars (p : ascii -> bool) (s : string) : bool :=
  match s with
  | EmptyString => true
  | String c r => p c && forallb_chars p r
  end.

Fixpoint lstrip (s : string) : string :=
  match s with
  | EmptyString => EmptyString
  | String c r => if isspace c then lstrip r else s
  end.

Fixpoint rstrip (s : string) : string :=
  match s with
  | EmptyString => EmptyString
  | String c r =>
      match rstrip r with
      | EmptyString => if isspace c then EmptyString else String c EmptyString
      | r' => String c r'
      end
  end.

(** [s.strip()] *)
Definition strip (s : string) : string := rstrip (lstrip s).

(** A text that does not start with whitespace. *)
Definition starts_clean (s : string) : Prop :=
  match s with
  | EmptyString => True
  | String c _ => isspace c = false
  end.

(** Truth value of a string: [if s:] *)
Definition truthy (s : string) : bool :=
  match s with EmptyString => false | _ => true end.

(** [sub in s] *)
Fixpoint contains (sub s : string) : bool :=
  prefix sub s ||
  match s with
  | EmptyString => false
  | String _ r => contains sub r
  end.

(** [s.split(sep)] for a non-empty [sep]: the occurrences of [sep] are
    taken from the left and do not overlap.  [skip] counts the characters
    of the current occurrence that are still to be dropped. *)
Fixpoint split_from (sep : string) (skip : nat) (s : string) : list string :=
  match s with
  | EmptyString => [EmptyString]
  | String c r =>
      match skip with
      | S k => split_from sep k r
      | O =>
          if prefix sep s then EmptyString :: split_from sep (length sep - 1) r
          else
            match split_from sep 0 r with
            | p :: ps => String c p :: ps
            | [] => [String c EmptyString]
            end
      end
  end.

Definition split (sep s : string) : list string := split_from sep 0 s.

(** [sep.join(parts)] *)
Definition join (sep : string) (parts : list string) : string :=
  concat sep parts.

Definition newline : string := String (ascii_of_nat 10) EmptyString.
Definition dquote : string := String (ascii_of_nat 34) EmptyString.

(** Iterating over a text file object: the lines, each with its
    terminating newline, the last one possibly without. *)
Fixpoint readlines (s : string) : list string :=
  match s with
  | EmptyString => []
  | String c r =>
      if (code c =? 10)%nat then String c EmptyString :: readlines r
      else
        match readlines r with
        | l :: ls => String c l :: ls
        | [] => [String c EmptyString]
        end
  end.

(** [str(n)] for an integer *)
Definition str_of_int (n : Z) : string :=
  NilZero.string_of_int (Z.to_int n).

Fixpoint drop (n : nat) (s : string) : string :=
  match n, s with
  | S k, String _ r => drop k r
  | _, _ => s
  end.

(** Number of leading characters of [s] in the class [p]. *)
Fixpoint span_len (p : ascii -> bool) (s : string) : nat :=
  match s with
  | String c r => if p c then S (span_len p r) else O
  | EmptyString => O
  end.

(** Python values, as far as the callers of the normalizer can pass them. *)
Inductive value : Type :=
| VNone
| VBool (b : bool)
| VInt (n : Z)
| VFloat (x : Q)
| VBytes (b : list ascii)
| VStr (s : string)
| VObject (type_name : string).

(** [isinstance(v, str)] *)
Definition isinstance_str (v : value) : bool :=
  match v with VStr _ => true | _ => false end.

Inductive exn : Type :=
| ValueError (msg : string).

Inductive result (A : Type) : Type :=
| Returns (a : A)
| Raises (e : exn).
Arguments Returns {A} a.
Arguments Raises {A} e.

End Py.

(** ** Libraries outside the repository

    [BeautifulSoup(text, 'html.parser').get_text()], [nltk.word_tokenize]
    and [WordNetLemmatizer.lemmatize]. *)

Class TextLibs : Type := {
  get_text : string -> string;
  word_tokenize : string -> list string;
  lemmatize : string -> string
}.

(** The one fact about the HTML parser that the development relies on: a
    text that holds neither [<] nor [&] and has no white space at its ends
    is returned as it is.  (A text of white space only is not: the parser
    returns one blank or one newline for it.) *)
Definition markup_free (s : string) : bool :=
  Py.forallb_chars
    (fun c => negb (Py.code c =? 60)%nat && negb (Py.code c =? 38)%nat) s.

Definition get_text_keeps_trimmed (L : TextLibs) : Prop :=
  forall s, markup_free s = true -> Py.strip s = s -> get_text s = s.

(** ** transcript_parser.py: the text normalizer *)

Module Normalizer.
Import Py.

Section WithLibs.
Context {L : TextLibs}.

Definition remove_html_tags (text : string) : string := get_text text.

(** [re.sub(r'[^\w\s]', '', text)] *)
Definition remove_punctuation (text : string) : string :=
  filter_chars (fun c => isword c || isspace c) text.

Definition nonspace (c : ascii) : bool := negb (isspace c).

(** First alternative, [http\S+], anchored at the start of [s]: the
    length of its match. *)
Definition match_http (s : string) : option nat :=
  if prefix "http" s then
    match span_len nonspace (drop 4 s) with
    | O => None
    | n => Some (4 + n)%nat
    end
  else None.

(** Second alternative, [www.\S+]: the dot is any character but a
    newline. *)
Definition match_www (s : string) : option nat :=
  if prefix "www" s then
    match drop 3 s with
    | String c r =>
        if (code c =? 10)%nat then None
        else
          match span_len nonspace r with
          | O => None
          | n => Some (4 + n)%nat
          end
    | EmptyString => None
    end
  else None.

Definition match_url (s : string) : option nat :=
  match match_http s with
  | Some n => Some n
  | None => match_www s
  end.

(** [re.sub(pattern, '', text)]: scan from the left, delete each match
    and go on after it.  [skip] counts the characters of the current
    match that are still to be deleted. *)
Fixpoint sub_urls (skip : nat) (s : string) : string :=
  match s with
  | EmptyString => EmptyString
  | String c r =>
      match skip with
      | S k => sub_urls k r
      | O =>
          match match_url s with
          | Some (S n) => sub_urls n r
          | _ => String c (sub_urls 0 r)
          end
      end
  end.

Definition remove_urls (text : string) : string := sub_urls 0 text.

Definition tokenize_and_lemmatize (text : string) : string :=
  let tokens := word_tokenize text in
  let lemmas := map lemmatize tokens in
  join " " lemmas.

Definition preprocess_text (text : value) (apply_lemmatization : bool) : string :=
  match text with
  | VStr text =>
      let text := lower text in
      let text := remove_urls text in
      let text := remove_html_tags text in
      let text := remove_punctuation text in
      let text := if apply_lemmatization then tokenize_and_lemmatize text else text in
      strip text
  | _ => ""
  end.

End WithLibs.

End Normalizer.

(** ** Stand-ins for the libraries, to run the code on concrete inputs *)

Module Reference.
Import Py.

(** Modelled from the spec: the HTML parser is a library and not part of
    the repository; the specification has this step strip HTML markup and
    keep only the visible text.  Whatever stands between an opening and
    the next closing angle bracket is markup. *)
Fixpoint strip_tags (inside : bool) (s : string) : string :=
  match s with
  | EmptyString => EmptyString
  | String c r =>
      if inside then strip_tags (negb (code c =? 62)%nat) r
      else if (code c =? 60)%nat then strip_tags true r
      else String c (strip_tags false r)
  end.

(** Modelled from the spec: the tokenizer and the lemmatizer are library
    code as well; the specification has them split the text into word
    tokens and replace each by its dictionary base form.  Here the tokens
    are the words between spaces and every word is its own base form. *)
Definition libs : TextLibs := {|
  get_text := strip_tags false;
  word_tokenize := fun s => filter truthy (split " " s);
  lemmatize := fun w => w
|}.

End Reference.

(** ** transcript_parser.py: the format parsers and the dispatcher *)

Module Parser.
Import Py Normalizer.

(** One element of a fixed-width pattern. *)
Inductive tok : Type :=
| Digit
| Lit (c : ascii).

Definition tok_matches (t : tok) (c : ascii) : bool :=
  match t with
  | Digit => isdigit c
  | Lit d => Ascii.eqb c d
  end.

(** [re.fullmatch] of a sequence of single-character elements. *)
Fixpoint fullmatch_toks (p : list tok) (s : string) : bool :=
  match p, s with
  | [], EmptyString => true
  | t :: p', String c r => tok_matches t c && fullmatch_toks p' r
  | _, _ => false
  end.

Fixpoint lits (s : string) : list tok :=
  match s with
  | EmptyString => []
  | String c r => Lit c :: lits r
  end.

(** [\d{2}:\d{2}:\d{2},\d{3}] *)
Definition clock_pattern : list tok :=
  [Digit; Digit] ++ lits ":" ++ [Digit; Digit] ++ lits ":" ++ [Digit; Digit]
  ++ lits "," ++ [Digit; Digit; Digit].

Definition timestamp_pattern : list tok :=
  clock_pattern ++ lits " --> " ++ clock_pattern.

(** [re.fullmatch(r'\d+', line)] *)
Definition is_index (line : string) : bool :=
  truthy line && forallb_chars isdigit line.

Definition is_timestamp (line : string) : bool :=
  fullmatch_toks timestamp_pattern line.

Section WithLibs.
Context {L : TextLibs}.

Fixpoint txt_loop (lines : list string) (apply_lemmatization : bool)
    (utterances : list string) : list string :=
  match lines with
  | [] => utterances
  | line :: rest =>
      let cleaned_line := preprocess_text (VStr (strip line)) apply_lemmatization in
      if truthy cleaned_line
      then txt_loop rest apply_lemmatization (utterances ++ [cleaned_line])
      else txt_loop rest apply_lemmatization utterances
  end.

Definition parse_txt_transcript (file_object : string)
    (apply_lemmatization : bool) : list string :=
  txt_loop (readlines file_object) apply_lemmatization [].

(** The two lists the subtitle loop updates. *)
Record srt_state : Type := {
  utterances : list string;
  current_utterance_lines : list string
}.

(** The flush that ends a block; the caller checks that the block has
    lines. *)
Definition flush (apply_lemmatization : bool) (st : srt_state) : list string :=
  let combined_utterance := join " " (current_utterance_lines st) in
  let cleaned_utterance := preprocess_text (VStr combined_utterance) apply_lemmatization in
  if truthy cleaned_utterance
  then utterances st ++ [cleaned_utterance]
  else utterances st.

Definition srt_step (apply_lemmatization : bool) (st : srt_state)
    (line : string) : srt_state :=
  let line := strip line in
  if negb (truthy line) then
    match current_utterance_lines st with
    | _ :: _ =>
        {| utterances := flush apply_lemmatization st;
           current_utterance_lines := [] |}
    | [] => st
    end
  else if is_index line then st
  else if is_timestamp line then st
  else {| utterances := utterances st;
          current_utterance_lines := current_utterance_lines st ++ [line] |}.

Fixpoint srt_loop (lines : list string) (apply_lemmatization : bool)
    (st : srt_state) : srt_state :=
  match lines with
  | [] => st
  | line :: rest => srt_loop rest apply_lemmatization (srt_step apply_lemmatization st line)
  end.

(** After the loop: the last utterance, if any remains. *)
Definition final_flush (apply_lemmatization : bool) (st : srt_state) : list string :=
  match current_utterance_lines st with
  | _ :: _ => flush apply_lemmatization st
  | [] => utterances st
  end.

(** The loop over the lines and the flush after it. *)
Definition srt_lines (lines : list string) (apply_lemmatization : bool) : list string :=
  let st := srt_loop lines apply_lemmatization
              {| utterances := []; current_utterance_lines := [] |} in
  final_flush apply_lemmatization st.

Definition parse_srt_transcript (file_object : string)
    (apply_lemmatization : bool) : list string :=
  let content := file_object in
  let lines := split newline content in
  srt_lines lines apply_lemmatization.

Definition parse_transcript_data (file_object file_type : string)
    (apply_lemmatization : bool) : result (list string) :=
  if String.eqb file_type "txt" then
    Returns (parse_txt_transcript file_object apply_lemmatization)
  else if String.eqb file_type "srt" then
    Returns (parse_srt_transcript file_object apply_lemmatization)
  else
    Raises (ValueError ("Unsupported transcript file type: " ++ file_type
                        ++ ". Only TXT and SRT are supported.")).

End WithLibs.

End Parser.

(** ** gemini_meeting_api.py: the completion client with retry

    The completion service is a state machine that the client drives:
    [generate_content] maps the state of the service and a prompt to what
    the call does and the next state.  [Response text] is a call that
    returns a response whose [text] reads as [text], possibly the empty
    string.  Everything raised inside the [try] derives from [Exception]:
    [exceptions.ResourceExhausted] is told apart, and [OtherException]
    stands for every other exception of the call and also for the
    [ValueError] that reading [response.text] raises on a blocked answer,
    which the same handler catches.

    Delays are finite numbers, taken as rationals.  A delay is doubled
    only after [time.sleep] has accepted it, so it stays far inside the
    range where doubling a binary floating-point number is exact.  What
    the code prints is left out.

    [time.sleep] is that of CPython on Linux.  Its clock counts
    nanoseconds in 64 bits: a length beyond that range raises
    [OverflowError], a negative one within it raises [ValueError].  The
    model draws the line at the exact value of the length.  Within a few
    thousand nanoseconds of either end of the range the interpreter's line
    depends on the rounding of the floating-point product, and near the
    upper end the deadline, which is the reading of the clock plus the
    length, can leave the range although the length is inside.  The
    properties of the client are therefore stated for lengths away from
    the ends: [accepted] ones, at most half the range, and [refused]
    ones. *)

Module Client.
Import Py.

(** What leaves the client as an exception: only [time.sleep] raises
    outside the [try].  It raises [ValueError] on a negative length and
    [OverflowError], with a text that depends on the interpreter, on a
    length that does not fit its clock. *)
Inductive error : Type :=
| ValueError (msg : string)
| OverflowError.

(** The result of the client and of what is built on it; the parsers keep
    [Py.result]. *)
Inductive result (A : Type) : Type :=
| Returns (a : A)
| Raises (e : error).
Arguments Returns {A} a.
Arguments Raises {A} e.

(** The clock of [time.sleep] counts nanoseconds in 64 bits. *)
Definition nanoseconds (delay : Q) : Q := Qmult delay (inject_Z (10 ^ 9)).

Definition fits_clock (delay : Q) : bool :=
  Qle_bool (inject_Z (- 2 ^ 63)) (nanoseconds delay)
  && Qle_bool (nanoseconds delay) (inject_Z (2 ^ 63 - 1)).

(** A length that [time.sleep] sleeps: not negative and at most [2 ^ 62]
    nanoseconds, which is 146 years and leaves as much for the reading of
    the clock. *)
Definition accepted (delay : Q) : bool :=
  Qle_bool 0 delay && Qle_bool (nanoseconds delay) (inject_Z (2 ^ 62)).

(** A length beyond the range of the clock by more than the rounding of
    the product. *)
Definition beyond_clock (delay : Q) : bool :=
  Qle_bool (inject_Z (2 ^ 63 + 2 ^ 11)) (nanoseconds delay)
  || Qle_bool (nanoseconds delay) (inject_Z (- 2 ^ 63 - 2 ^ 11)).

(** A length that [time.sleep] refuses: beyond the clock, or negative and
    within its range. *)
Definition refused (delay : Q) : bool :=
  beyond_clock delay || (fits_clock delay && negb (Qle_bool 0 delay)).

Inductive api_error : Type :=
| ResourceExhausted (e : string)
| OtherException (e : string).

Inductive outcome : Type :=
| Response (text : string)
| Throws (x : api_error).

(** What an observer of one call of the client sees. *)
Inductive event : Type :=
| Generate (prompt : string) (o : outcome)
| Sleep (delay : Q).

Definition is_generate (ev : event) : bool :=
  match ev with Generate _ _ => true | Sleep _ => false end.

Fixpoint sleeps_of (tr : list event) : list Q :=
  match tr with
  | [] => []
  | Sleep d :: r => d :: sleeps_of r
  | Generate _ _ :: r => sleeps_of r
  end.

Definition attempts_of (tr : list event) : nat :=
  List.length (filter is_generate tr).

Definition rate_limited (o : outcome) : bool :=
  match o with
  | Throws (ResourceExhausted _) => true
  | _ => false
  end.

Section WithService.
Variable service : Type.
Variable generate_content : service -> string -> outcome * service.

Record world : Type := {
  model_instance : service;
  trace : list event
}.

Definition call_service (prompt : string) (w : world) : outcome * world :=
  let (o, m) := generate_content (model_instance w) prompt in
  (o, {| model_instance := m; trace := trace w ++ [Generate prompt o] |}).

(** [time.sleep(delay)]: the length is converted to the clock first, then
    a negative one is refused. *)
Definition time_sleep (delay : Q) (w : world) : result world :=
  if fits_clock delay then
    if Qle_bool 0 delay
    then Returns {| model_instance := model_instance w;
                    trace := trace w ++ [Sleep delay] |}
    else Raises (ValueError "sleep length must be non-negative")
  else Raises OverflowError.

Definition blocked_message : string :=
  "AI response was empty or blocked, possibly due to safety settings.".

Definition unknown_reason_message : string :=
  "Failed to get response after multiple retries (unknown reason).".

Definition quota_message (max_retries : Z) (e : string) : string :=
  "Failed to get response after " ++ str_of_int max_retries
  ++ " retries due to quota/rate limit: " ++ e.

Definition unexpected_message (e : string) : string :=
  "An unexpected API error occurred: " ++ e.

(** The [while retries < max_retries] loop.  [fuel] bounds the number
    of iterations; [None] is the loop cut short by it. *)
Fixpoint retry_loop (fuel : nat) (prompt : string) (max_retries : Z)
    (retries : Z) (delay : Q) (w : world) : option (result string * world) :=
  if (retries <? max_retries)%Z then
    match fuel with
    | O => None
    | S fuel' =>
        match call_service prompt w with
        | (Response text, w) =>
            if truthy text then Some (Returns (strip text), w)
            else Some (Returns blocked_message, w)
        | (Throws (ResourceExhausted e), w) =>
            let retries := (retries + 1)%Z in
            if (retries <? max_retries)%Z then
              match time_sleep delay w with
              | Returns w =>
                  let delay := Qmult delay 2 in
                  retry_loop fuel' prompt max_retries retries delay w
              | Raises x => Some (Raises x, w)
              end
            else Some (Returns (quota_message max_retries e), w)
        | (Throws (OtherException e), w) =>
            Some (Returns (unexpected_message e), w)
        end
    end
  else Some (Returns unknown_reason_message, w).

Definition make_gemini_call_with_retry (prompt : string) (max_retries : Z)
    (initial_delay : Q) (w : world) : option (result string * world) :=
  let retries := 0%Z in
  let delay := initial_delay in
  retry_loop (Z.to_nat max_retries) prompt max_retries retries delay w.

Definition default_max_retries : Z := 7.
Definition default_initial_delay : Q := 1.

(** A fresh observer in front of a service in state [m]. *)
Definition start (m : service) : world :=
  {| model_instance := m; trace := [] |}.

(** The service after [n] calls with [prompt], and what call number
    [n] (counted from 0) does. *)
Fixpoint state_after (prompt : string) (n : nat) (m : service) : service :=
  match n with
  | O => m
  | S k => state_after prompt k (snd (generate_content m prompt))
  end.

Definition nth_outcome (prompt : string) (n : nat) (m : service) : outcome :=
  fst (generate_content (state_after prompt n m) prompt).

(** What is observed of [n] attempts, each followed by its backoff
    sleep, the first sleep lasting [d]. *)
Fixpoint backoff_trace (prompt : string) (n : nat) (m : service) (d : Q)
    : list event :=
  match n with
  | O => []
  | S k =>
      Generate prompt (fst (generate_content m prompt))
      :: Sleep d
      :: backoff_trace prompt k (snd (generate_content m prompt)) (Qmult d 2)
  end.

End WithService.

Arguments model_instance {service} w.
Arguments trace {service} w.
Arguments start {service} m.
Arguments call_service {service} generate_content prompt w.
Arguments time_sleep {service} delay w.
Arguments retry_loop {service} generate_content fuel prompt max_retries retries delay w.
Arguments make_gemini_call_with_retry {service} generate_content prompt
  max_retries initial_delay w.
Arguments state_after {service} generate_content prompt n m.
Arguments nth_outcome {service} generate_content prompt n m.
Arguments backoff_trace {service} generate_content prompt n m d.

(** The delay after [n] doublings. *)
Fixpoint delay_after (n : nat) (d : Q) : Q :=
  match n with
  | O => d
  | S k => delay_after k (Qmult d 2)
  end.

(** The delays of [n] successive backoff sleeps that start at [d]. *)
Fixpoint backoff (n : nat) (d : Q) : list Q :=
  match n with
  | O => []
  | S k => d :: backoff k (Qmult d 2)
  end.

End Client.

(** ** gemini_meeting_api.py: the analysis functions *)

Module Analysis.
Import Py Client.

(** A triple-quoted template, line by line. *)
Definition template (lines : list string) : string := join newline lines.

Definition summary_prompt (full_transcript_text : string) : string :=
  template
    [ "";
      "    You are an AI assistant specialized in summarizing meeting transcripts.";
      "    Read the following meeting transcript and provide a concise, high-level summary.";
      "    Focus on the main topics discussed, key outcomes, and overall purpose of the meeting.";
      "";
      "    Meeting Transcript:";
      ("    " ++ full_transcript_text)%string;
      "";
      "    Summary:";
      "    " ].

Definition action_items_prompt (full_transcript_text : string) : string :=
  template
    [ "";
      "    From the following meeting transcript, identify all action items, tasks, or follow-up activities.";
      "    For each action item, state what needs to be done, who is responsible (if mentioned), and any deadlines (if mentioned).";
      ("    List each action item on a new line, starting with a dash " ++ dquote ++ "- " ++ dquote
        ++ ". If no action items are present, state " ++ dquote ++ "No action items identified." ++ dquote)%string;
      "";
      "    Meeting Transcript:";
      ("    " ++ full_transcript_text)%string;
      "";
      "    Action Items:";
      "    " ].

Definition key_decisions_prompt (full_transcript_text : string) : string :=
  template
    [ "";
      "    Review the following meeting transcript and identify all significant decisions that were made.";
      ("    List each key decision on a new line, starting with a dash " ++ dquote ++ "- " ++ dquote
        ++ ". If no decisions are present, state " ++ dquote ++ "No key decisions identified." ++ dquote)%string;
      "";
      "    Meeting Transcript:";
      ("    " ++ full_transcript_text)%string;
      "";
      "    Key Decisions:";
      "    " ].

(** [[item.strip() for item in raw_response.split('- ') if item.strip()]] *)
Definition bullet_items (raw_response : string) : list string :=
  map strip (filter (fun item => truthy (strip item)) (split "- " raw_response)).


Definition no_action_items : string := "No action items identified".
Definition no_key_decisions : string := "No key decisions identified".

Section WithService.
Variable service : Type.
Variable generate_content : service -> string -> outcome * service.

(** A call that leaves [max_retries] and [initial_delay] at their
    defaults. *)
Definition call (prompt : string) (w : world service)
    : option (result string * world service) :=
  make_gemini_call_with_retry generate_content prompt
    default_max_retries default_initial_delay w.

Definition get_meeting_summary (full_transcript_text : string)
    (w : world service) : option (result string * world service) :=
  call (summary_prompt full_transcript_text) w.

Definition extract_action_items (full_transcript_text : string)
    (w : world service) : option (result (list string) * world service) :=
  match call (action_items_prompt full_transcript_text) w with
  | Some (Returns raw_response, w) =>
      if contains no_action_items raw_response then Some (Returns [], w)
      else
        let action_items := bullet_items raw_response in
        Some (Returns action_items, w)
  | Some (Raises x, w) => Some (Raises x, w)
  | None => None
  end.

Definition highlight_key_decisions (full_transcript_text : string)
    (w : world service) : option (result (list string) * world service) :=
  match call (key_decisions_prompt full_transcript_text) w with
  | Some (Returns raw_response, w) =>
      if contains no_key_decisions raw_response then Some (Returns [], w)
      else
        let decisions := bullet_items raw_response in
        Some (Returns decisions, w)
  | Some (Raises x, w) => Some (Raises x, w)
  | None => None
  end.

End WithService.

End Analysis.

(** ** The subtitle format as the specification words it

    Blocks are runs of lines between blank lines; within a block the index
    and timestamp lines are dropped, the others are joined with one space
    and normalized, and the non-empty results are kept in block order.
    Lines are taken trimmed, as the parser trims each of them first. *)

Module SubtitleSpec.
Import Py Normalizer Parser.

Definition blank (line : string) : bool := negb (truthy line).

Definition content_line (line : string) : bool :=
  negb (is_index line) && negb (is_timestamp line).

(** The runs of lines between blank lines. *)
Fixpoint blocks_of (lines : list string) : list (list string) :=
  match lines with
  | [] => [[]]
  | line :: rest =>
      match blocks_of rest with
      | block :: blocks =>
          if blank line then [] :: block :: blocks
          else (line :: block) :: blocks
      | [] => [[line]]
      end
  end.

Section WithLibs.
Context {L : TextLibs}.

Definition block_text (block : list string) : string :=
  join " " (filter content_line block).

Definition utterances_of (apply_lemmatization : bool)
    (blocks : list (list string)) : list string :=
  filter truthy
    (map (fun block => preprocess_text (VStr (block_text block)) apply_lemmatization)
         blocks).

(** The utterances of blocks whose lines are already filtered, the
    first block continuing the lines [current]. *)
Definition emit (apply_lemmatization : bool) (current : list string)
    (blocks : list (list string)) : list string :=
  match blocks with
  | block :: blocks =>
      filter truthy
        (map (fun kept => preprocess_text (VStr (join " " kept)) apply_lemmatization)
             ((current ++ block) :: blocks))
  | [] => []
  end.

Definition srt_spec (content : string) (apply_lemmatization : bool) : list string :=
  utterances_of apply_lemmatization
    (blocks_of (map strip (split newline content))).

(** What a last block with no blank line after it contributes. *)
Definition trailing_utterance (apply_lemmatization : bool)
    (block : list string) : list string :=
  match filter content_line (map strip block) with
  | [] => []
  | kept =>
      let cleaned := preprocess_text (VStr (join " " kept)) apply_lemmatization in
      if truthy cleaned then [cleaned] else []
  end.

End WithLibs.

(** The one-block subtitle input of the specification. *)
Definition sample_block : string :=
  "1" ++ newline ++ "00:00:00,000 --> 00:00:02,500" ++ newline
  ++ "Hello world." ++ newline ++ newline.

End SubtitleSpec.

(** ** Stub services

    A service that answers its calls from a script, then with a fallback;
    its state is the number of calls made so far. *)

Module Stub.
Import Client.

Definition scripted (script : list outcome) (fallback : outcome)
    : nat -> string -> outcome * nat :=
  fun calls _ => (nth calls script fallback, S calls).

Definition quota : outcome := Throws (ResourceExhausted "429 quota exceeded").

Definition twice_then_ok : nat -> string -> outcome * nat :=
  scripted [quota; quota] (Response "  The budget was approved. ").

Definition always_limited : nat -> string -> outcome * nat :=
  scripted [] quota.

Definition once_then_broken : nat -> string -> outcome * nat :=
  scripted [quota] (Throws (OtherException "503 unavailable")).


Definition answers (text : string) : nat -> string -> outcome * nat :=
  scripted [] (Response text).

End Stub.

(** ** What a run of the client may be observed to do *)

Module ClientSpec.
Import Client.

(** The calls among the events carry the prompt [p]. *)
Definition same_prompt (p : string) (ev : event) : Prop :=
  match ev with
  | Generate q _ => q = p
  | Sleep _ => True
  end.

Definition flaky_then (n : nat) (last : outcome) : nat -> string -> outcome * nat :=
  Stub.scripted (repeat Stub.quota n) last.

End ClientSpec.

(** ** gemini_meeting_api.py: the choice of the model

    [genai.list_models()] either yields the models the service offers or
    raises.  What the function prints, and the text of the [ValueError] it
    raises to itself, are left out. *)

Module ModelChoice.
Import Py.

Record Model : Type := {
  name : string;
  supported_generation_methods : list string
}.

(** [x in l] for a list of strings *)
Definition mem (x : string) (l : list string) : bool :=
  existsb (String.eqb x) l.

(** What the [try] block raises. *)
Inductive failure : Type :=
| ListingFailed
| NoSuitableModel (available_models : list string).

Inductive attempt : Type :=
| Return (model : string)
| Raise (e : failure).

Fixpoint collect (models : list Model) (available_models : list string) : list string :=
  match models with
  | [] => available_models
  | m :: rest =>
      if mem "generateContent" (supported_generation_methods m)
      then collect rest (available_models ++ [name m])
      else collect rest available_models
  end.

Fixpoint first_preferred (preferred_models available_models : list string)
    : option string :=
  match preferred_models with
  | [] => None
  | p_model :: rest =>
      let full_model_name := ("models/" ++ p_model)%string in
      if mem full_model_name available_models then Some p_model
      else first_preferred rest available_models
  end.

(** The body of the [try]. *)
Definition try_listing (list_models : option (list Model))
    (preferred_models : list string) (fallback_model : string) : attempt :=
  match list_models with
  | None => Raise ListingFailed
  | Some models =>
      let available_models := collect models [] in
      match first_preferred preferred_models available_models with
      | Some p_model => Return p_model
      | None =>
          let full_fallback_name := ("models/" ++ fallback_model)%string in
          if mem full_fallback_name available_models then Return fallback_model
          else Raise (NoSuitableModel available_models)
      end
  end.

Definition get_supported_model (list_models : option (list Model))
    (preferred_models : list string) (fallback_model : string) : string :=
  match try_listing list_models preferred_models fallback_model with
  | Return model => model
  | Raise _ => fallback_model
  end.

Definition default_preferred_models : list string :=
  ["gemini-1.5-flash"; "gemini-1.0-pro"].

Definition default_fallback_model : string := "gemini-1.0-pro".

(** A model of the listing that offers [p] for [generateContent]. *)
Definition offers (models : list Model) (p : string) : Prop :=
  exists m, In m models
            /\ name m = ("models/" ++ p)%string
            /\ In "generateContent"%string (supported_generation_methods m).

End ModelChoice.

(** ** The response format the prompts ask for

    The prompts of [extract_action_items] and [highlight_key_decisions]
    ask for each item on a new line, starting with a dash and a space. *)

Module BulletFormat.
Import Py.

Definition bulleted (items : list string) : string :=
  join newline (map (fun item => "- " ++ item)%string items).

(** An item as the parser returns it: not empty, trimmed, and without the
    bullet delimiter inside. *)
Definition clean_item (item : string) : Prop :=
  item <> "" /\ strip item = item /\ contains "- " item = false.

(** The text after the first delimiter, and its pieces. *)
Fixpoint body (items : list string) : string :=
  match items with
  | [] => ""
  | [item] => item
  | item :: rest => (item ++ newline ++ "- " ++ body rest)%string
  end.

Fixpoint terminated (items : list string) : list string :=
  match items with
  | [] => [""]
  | [item] => [item]
  | item :: rest => (item ++ newline)%string :: terminated rest
  end.

End BulletFormat.

(** ** Tokens of a text *)

Module Tokens.
Import Py.

(** A text at whose start a run of non-whitespace characters ends. *)
Definition ends_token (rest : string) : Prop :=
  match rest with
  | EmptyString => True
  | String c _ => isspace c = true
  end.

End Tokens.

(** ** Lines of a transcript *)

Module Lines.
Import Py Normalizer Parser.

Section WithLibs.
Context {L : TextLibs}.

(** What both parsers make of one piece of text: trim it, normalize it. *)
Definition line_text (apply_lemmatization : bool) (line : string) : string :=
  preprocess_text (VStr (strip line)) apply_lemmatization.

End WithLibs.

(** A line the subtitle parser passes over. *)
Definition skipped (line : string) : Prop :=
  strip line = "" \/ is_index (strip line) = true \/ is_timestamp (strip line) = true.

(** An utterance as the parsers return it. *)
Definition utterance (u : string) : Prop := u <> "" /\ strip u = u.

End Lines.

(** ** app.py: the session and its handlers

    The fields of [st.session_state], the handling of an uploaded file and
    the run of the analysis.  The widgets, the spinner and the texts of the
    notices are left out; a notice keeps what its text is built from.
    [st.rerun()] ends the run of the script, so each handler is the code up
    to it. *)

Module App.
Import Client Analysis Py Normalizer Parser.

Record session : Type := {
  theme : string;
  transcript_text : string;
  file_type : option string;
  meeting_summary : string;
  action_items : list string;
  key_decisions : list string;
  discussion_topics : list string;
  analysis_completed : bool;
  last_uploaded_file_name : option string
}.

(** The state a first run of the script sets up. *)
Definition initial_session : session := {|
  theme := "dark";
  transcript_text := "";
  file_type := None;
  meeting_summary := "";
  action_items := [];
  key_decisions := [];
  discussion_topics := [];
  analysis_completed := false;
  last_uploaded_file_name := None
|}.

(** An uploaded file: its name and [getvalue().decode("utf-8")], which
    raises [UnicodeDecodeError], a [ValueError], on bytes that are no
    UTF-8. *)
Record uploaded_file : Type := {
  file_name : string;
  decoded : result string
}.

Inductive notice : Type :=
| UploadParsed (total_utterances : nat)
| ParsingError (ve : string).

(** [name.split('.')[-1].lower()] *)
Definition extension (name : string) : string :=
  lower (last (split "." name) "").

(** [st.session_state.last_uploaded_file_name != uploaded_file.name] *)
Definition other_name (last_name : option string) (name : string) : bool :=
  match last_name with
  | Some n => negb (String.eqb n name)
  | None => true
  end.

Section WithLibs.
Context {L : TextLibs}.

(** The block under [if uploaded_file is not None]. *)
Definition handle_upload (lemmatize_option : bool) (up : uploaded_file)
    (st : session) : session * list notice :=
  if other_name (last_uploaded_file_name st) (file_name up) then
    let st := {|
      theme := theme st;
      transcript_text := "";
      file_type := Some (extension (file_name up));
      meeting_summary := "";
      action_items := [];
      key_decisions := [];
      discussion_topics := [];
      analysis_completed := false;
      last_uploaded_file_name := Some (file_name up)
    |} in
    let failed (ve : string) :=
      ({| theme := theme st;
          transcript_text := "";
          file_type := file_type st;
          meeting_summary := meeting_summary st;
          action_items := action_items st;
          key_decisions := key_decisions st;
          discussion_topics := discussion_topics st;
          analysis_completed := analysis_completed st;
          last_uploaded_file_name := None |},
       [ParsingError ve]) in
    match decoded up with
    | Raises (ValueError ve) => failed ve
    | Returns file_content_str =>
        match parse_transcript_data file_content_str (extension (file_name up))
                lemmatize_option with
        | Raises (ValueError ve) => failed ve
        | Returns cleaned_utterances =>
            ({| theme := theme st;
                transcript_text := join " " cleaned_utterances;
                file_type := file_type st;
                meeting_summary := meeting_summary st;
                action_items := action_items st;
                key_decisions := key_decisions st;
                discussion_topics := discussion_topics st;
                analysis_completed := analysis_completed st;
                last_uploaded_file_name := last_uploaded_file_name st |},
             [UploadParsed (List.length cleaned_utterances)])
        end
    end
  else (st, []).

End WithLibs.

Definition set_meeting_summary (v : string) (st : session) : session :=
  {| theme := theme st; transcript_text := transcript_text st;
     file_type := file_type st; meeting_summary := v;
     action_items := action_items st; key_decisions := key_decisions st;
     discussion_topics := discussion_topics st;
     analysis_completed := analysis_completed st;
     last_uploaded_file_name := last_uploaded_file_name st |}.

Definition set_action_items (v : list string) (st : session) : session :=
  {| theme := theme st; transcript_text := transcript_text st;
     file_type := file_type st; meeting_summary := meeting_summary st;
     action_items := v; key_decisions := key_decisions st;
     discussion_topics := discussion_topics st;
     analysis_completed := analysis_completed st;
     last_uploaded_file_name := last_uploaded_file_name st |}.

Definition set_key_decisions (v : list string) (st : session) : session :=
  {| theme := theme st; transcript_text := transcript_text st;
     file_type := file_type st; meeting_summary := meeting_summary st;
     action_items := action_items st; key_decisions := v;
     discussion_topics := discussion_topics st;
     analysis_completed := analysis_completed st;
     last_uploaded_file_name := last_uploaded_file_name st |}.

Definition set_discussion_topics (v : list string) (st : session) : session :=
  {| theme := theme st; transcript_text := transcript_text st;
     file_type := file_type st; meeting_summary := meeting_summary st;
     action_items := action_items st; key_decisions := key_decisions st;
     discussion_topics := v;
     analysis_completed := analysis_completed st;
     last_uploaded_file_name := last_uploaded_file_name st |}.

Definition set_analysis_completed (v : bool) (st : session) : session :=
  {| theme := theme st; transcript_text := transcript_text st;
     file_type := file_type st; meeting_summary := meeting_summary st;
     action_items := action_items st; key_decisions := key_decisions st;
     discussion_topics := discussion_topics st;
     analysis_completed := v;
     last_uploaded_file_name := last_uploaded_file_name st |}.

Definition placeholder_topics : list string :=
  ["project progress"; "design review"; "content approval";
   "analytics dashboard"; "budget allocation"; "influencer outreach"].

(** From here on [result] is that of the client. *)
Import Client.

Section WithService.
Variable service : Type.
Variable generate_content : service -> string -> outcome * service.

(** The block under the analysis button, once the button is pressed.
    Every assignment to the session stays when a later call raises. *)
Definition run_analysis (st : session) (w : world service)
    : option (result unit * session * world service) :=
  match get_meeting_summary service generate_content (transcript_text st) w with
  | None => None
  | Some (Raises x, w) => Some (Raises x, st, w)
  | Some (Returns summary, w) =>
      let st := set_meeting_summary summary st in
      match extract_action_items service generate_content (transcript_text st) w with
      | None => None
      | Some (Raises x, w) => Some (Raises x, st, w)
      | Some (Returns items, w) =>
          let st := set_action_items items st in
          match highlight_key_decisions service generate_content (transcript_text st) w with
          | None => None
          | Some (Raises x, w) => Some (Raises x, st, w)
          | Some (Returns decisions, w) =>
              let st := set_key_decisions decisions st in
              let st := if truthy (meeting_summary st)
                        then set_discussion_topics placeholder_topics st
                        else st in
              let st := set_analysis_completed true st in
              Some (Returns tt, st, w)
          end
      end
  end.

(** [if transcript_text and not analysis_completed:] with the state of
    the button. *)
Definition analysis_step (pressed : bool) (st : session) (w : world service)
    : option (result unit * session * world service) :=
  if truthy (transcript_text st) && negb (analysis_completed st) then
    if pressed then run_analysis st w else Some (Returns tt, st, w)
  else Some (Returns tt, st, w).

End WithService.

End App.

(** ** styling.py: the colours of a theme *)

Module Styling.

(** The dictionary, as its items in the order they are written. *)
Definition get_theme_colors (is_dark_theme : bool) : list (string * string) :=
  if is_dark_theme then
    [ ("bg_primary", "#0d1117");
      ("bg_secondary", "#161b22");
      ("text_color", "#e6edf3");
      ("header_color", "#58a6ff");
      ("accent_color", "#21262d");
      ("plot_bar_color", "#0ea5e9");
      ("plot_grid_color", "#555555") ]
  else
    [ ("bg_primary", "#ffffff");
      ("bg_secondary", "#f0f2f6");
      ("text_color", "#303030");
      ("header_color", "#0056b3");
      ("accent_color", "#e0e0e0");
      ("plot_bar_color", "#007bff");
      ("plot_grid_color", "#cccccc") ].

(** [d[key]], [None] for the [KeyError]. *)
Fixpoint getitem (d : list (string * string)) (key : string) : option string :=
  match d with
  | [] => None
  | (k, v) :: rest => if String.eqb k key then Some v else getitem rest key
  end.

End Styling.

(** ** visualization.py: the chart of the discussion topics

    A [Counter] is the list of its items in the order of first occurrence.
    [most_common(n)] is [heapq.nlargest(n, items, key=count)], which the
    library documents as [sorted(items, key=count, reverse=True)[:n]]: a
    stable sort, so items of equal count keep their order.  [str.title]
    is taken as given; what is drawn is kept as the data of the chart. *)

Module Visualization.
Import Styling.

(** [counts[t] = counts.get(t, 0) + 1] *)
Fixpoint bump (t : string) (counts : list (string * nat)) : list (string * nat) :=
  match counts with
  | [] => [(t, 1%nat)]
  | (k, c) :: rest =>
      if String.eqb k t then (k, S c) :: rest else (k, c) :: bump t rest
  end.

Definition Counter (topics : list string) : list (string * nat) :=
  fold_left (fun counts t => bump t counts) topics [].

(** Stable insertion into a list of items in descending order of count. *)
Fixpoint insert_desc (x : string * nat) (sorted : list (string * nat))
    : list (string * nat) :=
  match sorted with
  | [] => [x]
  | y :: rest =>
      if (snd y <? snd x)%nat then x :: y :: rest else y :: insert_desc x rest
  end.

Definition sorted_desc (items : list (string * nat)) : list (string * nat) :=
  fold_left (fun sorted x => insert_desc x sorted) items [].

Definition most_common (n : nat) (counts : list (string * nat))
    : list (string * nat) :=
  firstn n (sorted_desc counts).

Definition top_n_topics (topics : list string) : list (string * nat) :=
  let topic_counts := Counter topics in
  let num_top_topics := Nat.min (List.length topic_counts) 10 in
  most_common num_top_topics topic_counts.

Record chart : Type := {
  labels : list string;
  values : list nat;
  bar_color : string;
  text_color : string;
  grid_color : string;
  figure_facecolor : string;
  axes_facecolor : string
}.

Inductive shown : Type :=
| Info (message : string)
| Pyplot (fig : chart)
| KeyError (key : string).

Section WithTitle.
Variable title : string -> string.

Definition plot_discussion_topics (topics : list string) (is_dark_theme : bool)
    : shown :=
  match topics with
  | [] => Info "No topics available to generate a chart."
  | _ =>
      let colors := get_theme_colors is_dark_theme in
      match top_n_topics topics with
      | [] => Info "Not enough distinct topics to generate a meaningful chart."
      | top =>
          let labels := map (fun item => title (fst item)) top in
          let values := map snd top in
          match getitem colors "plot_bar_color" with
          | None => KeyError "plot_bar_color"
          | Some bar =>
              match getitem colors "text_color" with
              | None => KeyError "text_color"
              | Some text =>
                  match getitem colors "plot_grid_color" with
                  | None => KeyError "plot_grid_color"
                  | Some grid =>
                      match getitem colors "bg_primary" with
                      | None => KeyError "bg_primary"
                      | Some primary =>
                          match getitem colors "bg_secondary" with
                          | None => KeyError "bg_secondary"
                          | Some secondary =>
                              Pyplot {| labels := labels;
                                        values := values;
                                        bar_color := bar;
                                        text_color := text;
                                        grid_color := grid;
                                        figure_facecolor := primary;
                                        axes_facecolor := secondary |}
                          end
                      end
                  end
              end
          end
      end
  end.

End WithTitle.

(** [counts.keys()] *)
Definition keys (counts : list (string * nat)) : list string := map fst counts.

(** Counts that do not go up from one bar to the next. *)
Fixpoint descending (values : list nat) : Prop :=
  match values with
  | [] => True
  | v :: rest => (forall v', In v' rest -> (v' <= v)%nat) /\ descending rest
  end.

End Visualization.

(** ** Time spent sleeping *)

Module SleepTime.

Fixpoint pow2 (n : nat) : Q :=
  match n with
  | O => 1
  | S k => Qmult 2 (pow2 k)
  end.

(** The sum of the delays. *)
Fixpoint total (delays : list Q) : Q :=
  match delays with
  | [] => 0
  | d :: rest => Qplus d (total rest)
  end.

End SleepTime.

(** * Properties *)

(** ** Facts about the string primitives *)

Module PyFacts.
Import Py.
Local Open Scope string_scope.

Lemma forallb_chars_filter (p : ascii -> bool) (s : string) :
  forallb_chars p (filter_chars p s) = true.
Proof.
  induction s as [|c r IH]; simpl; [reflexivity|].
  destruct (p c) eqn:E; simpl; [rewrite E|]; assumption.
Qed.

Lemma filter_chars_id (p : ascii -> bool) (s : string) :
  forallb_chars p s = true -> filter_chars p s = s.
Proof.
  induction s as [|c r IH]; simpl; [reflexivity|].
  intros H. apply andb_prop in H. destruct H as [Hc Hr].
  rewrite Hc. f_equal. now apply IH.
Qed.

Lemma forallb_chars_weaken (p q : ascii -> bool) (s : string) :
  (forall c, p c = true -> q c = true) ->
  forallb_chars p s = true -> forallb_chars q s = true.
Proof.
  intros Hpq. induction s as [|c r IH]; simpl; [reflexivity|].
  intros H. apply andb_prop in H. destruct H as [Hc Hr].
  rewrite (Hpq _ Hc). now apply IH.
Qed.

Lemma forallb_chars_lstrip (p : ascii -> bool) (s : string) :
  forallb_chars p s = true -> forallb_chars p (lstrip s) = true.
Proof.
  induction s as [|c r IH]; simpl; [reflexivity|].
  intros H. destruct (isspace c); [|exact H].
  apply andb_prop in H. now apply IH.
Qed.

Lemma forallb_chars_rstrip (p : ascii -> bool) (s : string) :
  forallb_chars p s = true -> forallb_chars p (rstrip s) = true.
Proof.
  induction s as [|c r IH]; simpl; [reflexivity|].
  intros H. apply andb_prop in H. destruct H as [Hc Hr].
  specialize (IH Hr).
  destruct (rstrip r) as [|d r'].
  - destruct (isspace c); simpl; [reflexivity|now rewrite Hc].
  - change (p c && forallb_chars p (String d r') = true). now rewrite Hc.
Qed.

Lemma forallb_chars_strip (p : ascii -> bool) (s : string) :
  forallb_chars p s = true -> forallb_chars p (strip s) = true.
Proof.
  intros H. unfold strip. now apply forallb_chars_rstrip, forallb_chars_lstrip.
Qed.

Lemma lstrip_starts_clean (s : string) : starts_clean (lstrip s).
Proof.
  induction s as [|c r IH]; simpl; [exact I|].
  destruct (isspace c) eqn:E; [exact IH|exact E].
Qed.

Lemma lstrip_clean (s : string) : starts_clean s -> lstrip s = s.
Proof.
  destruct s as [|c r]; simpl; [reflexivity|].
  intros H. now rewrite H.
Qed.

Lemma rstrip_starts_clean (s : string) : starts_clean s -> starts_clean (rstrip s).
Proof.
  destruct s as [|c r]; simpl; [exact (fun h => h)|].
  intros H. destruct (rstrip r); [rewrite H|]; exact H.
Qed.

Lemma rstrip_idem (s : string) : rstrip (rstrip s) = rstrip s.
Proof.
  induction s as [|c r IH]; simpl; [reflexivity|].
  destruct (rstrip r) as [|d r'] eqn:E.
  - destruct (isspace c) eqn:Ec; simpl; [reflexivity|now rewrite Ec].
  - change (rstrip (String c (String d r')) = String c (String d r')).
    change (match rstrip (String d r') with
            | EmptyString => if isspace c then EmptyString else String c EmptyString
            | r0 => String c r0
            end = String c (String d r')).
    now rewrite IH.
Qed.

Lemma strip_idem (s : string) : strip (strip s) = strip s.
Proof.
  unfold strip.
  rewrite (lstrip_clean (rstrip (lstrip s))).
  - apply rstrip_idem.
  - apply rstrip_starts_clean, lstrip_starts_clean.
Qed.

Lemma truthy_false (s : string) : truthy s = false -> s = "".
Proof. destruct s; [reflexivity|discriminate]. Qed.

Lemma truthy_true (s : string) : truthy s = true <-> s <> "".
Proof. destruct s; simpl; split; congruence. Qed.

(** Word characters and whitespace are not markup characters. *)
Lemma word_or_space_not_markup (c : ascii) :
  isword c || isspace c = true ->
  negb (code c =? 60)%nat && negb (code c =? 38)%nat = true.
Proof.
  destruct c as [[] [] [] [] [] [] [] []]; vm_compute; congruence.
Qed.

(** Digits are not whitespace. *)
Lemma isdigit_not_space (c : ascii) : isdigit c = true -> isspace c = false.
Proof.
  destruct c as [[] [] [] [] [] [] [] []]; vm_compute; congruence.
Qed.

(** *** [split] and [join] *)

Lemma split_from_cons (sep : string) (k : nat) (s : string) :
  exists p ps, split_from sep k s = p :: ps.
Proof.
  revert k. induction s as [|c r IH]; intros k; cbn [split_from];
    [now eexists; eexists|].
  destruct k as [|k]; [|apply IH].
  destruct (prefix sep (String c r)); [now eexists; eexists|].
  destruct (IH O) as (p & ps & E). rewrite E. now eexists; eexists.
Qed.

Lemma split_from_skip (sep : string) (s : string) :
  forall k, (k <= length s)%nat -> split_from sep k s = split_from sep 0 (drop k s).
Proof.
  induction s as [|c r IH]; intros [|k] Hk; try reflexivity.
  simpl in Hk. simpl. apply IH. lia.
Qed.

Lemma prefix_drop (a s : string) :
  prefix a s = true -> s = a ++ drop (length a) s.
Proof.
  revert s. induction a as [|x a IH]; intros s H.
  - now destruct s.
  - destruct s as [|y s]; [discriminate|]. simpl in H.
    destruct (ascii_dec x y) as [->|]; [|discriminate].
    simpl. f_equal. now apply IH.
Qed.

Lemma prefix_length (a s : string) :
  prefix a s = true -> (length a <= length s)%nat.
Proof.
  revert s. induction a as [|x a IH]; intros s H; simpl; [lia|].
  destruct s as [|y s]; [discriminate|]. simpl in H.
  destruct (ascii_dec x y); [|discriminate].
  specialize (IH s H). simpl. lia.
Qed.

Lemma length_drop (k : nat) (s : string) : (length (drop k s) <= length s)%nat.
Proof.
  revert s. induction k as [|k IH]; intros [|c r]; simpl; try lia.
  specialize (IH r). lia.
Qed.

Lemma join_cons2 (sep x y : string) (l : list string) :
  join sep (x :: y :: l) = x ++ sep ++ join sep (y :: l).
Proof. reflexivity. Qed.

Lemma join_cons_char (sep : string) (c : ascii) (p : string) (ps : list string) :
  join sep (String c p :: ps) = String c (join sep (p :: ps)).
Proof. destruct ps; reflexivity. Qed.

(** Putting the separator back between the pieces gives the text
    back. *)
Lemma join_split (sep s : string) : sep <> "" -> join sep (split sep s) = s.
Proof.
  intros Hsep. unfold split.
  remember (length s) as n eqn:Hn.
  revert s Hn. induction n as [n IH] using lt_wf_ind. intros s Hn.
  destruct s as [|c r]; [reflexivity|].
  cbn [split_from].
  destruct (prefix sep (String c r)) eqn:Hp.
  - destruct sep as [|x sep']; [congruence|].
    pose proof (prefix_drop _ _ Hp) as Hs.
    pose proof (prefix_length _ _ Hp) as Hl.
    simpl in Hs, Hl. injection Hs as Hc Hr.
    replace (length (String x sep') - 1)%nat with (length sep') by (simpl; lia).
    rewrite split_from_skip by lia.
    destruct (split_from_cons (String x sep') 0 (drop (length sep') r)) as (p & ps & E).
    rewrite E, join_cons2, <- E.
    assert (Hlt : (length (drop (length sep') r) < n)%nat).
    { subst n. simpl. pose proof (length_drop (length sep') r). lia. }
    rewrite (IH _ Hlt (drop (length sep') r) eq_refl).
    simpl. now rewrite <- Hr, <- Hc.
  - destruct (split_from_cons sep 0 r) as (p & ps & E).
    rewrite E, join_cons_char, <- E.
    assert (Hlt : (length r < n)%nat) by (subst n; simpl; lia).
    now rewrite (IH _ Hlt r eq_refl).
Qed.

Lemma prefix_app (a x y : string) :
  prefix a x = true -> prefix a (x ++ y) = true.
Proof.
  revert x. induction a as [|c a IH]; intros x H; [now destruct (x ++ y)|].
  destruct x as [|d x]; [discriminate|]. simpl in *.
  destruct (ascii_dec c d); [now apply IH|discriminate].
Qed.

Lemma join_cons_app (sep p : string) (ps : list string) :
  exists t, join sep (p :: ps) = p ++ t.
Proof.
  destruct ps as [|q ps].
  - exists "". simpl. clear. induction p as [|c p IH]; simpl; [reflexivity|].
    now rewrite <- IH.
  - eexists. apply join_cons2.
Qed.

(** No piece holds the separator. *)
Lemma split_no_sep (sep s : string) :
  sep <> "" -> Forall (fun p => contains sep p = false) (split sep s).
Proof.
  intros Hsep. unfold split.
  remember (length s) as n eqn:Hn.
  revert s Hn. induction n as [n IH] using lt_wf_ind. intros s Hn.
  assert (Hnil : contains sep "" = false).
  { destruct sep; [congruence|reflexivity]. }
  destruct s as [|c r]; [now repeat constructor|].
  cbn [split_from].
  destruct (prefix sep (String c r)) eqn:Hp.
  - constructor; [exact Hnil|].
    pose proof (prefix_length _ _ Hp) as Hl.
    destruct sep as [|x sep']; [congruence|]. simpl in Hl.
    replace (length (String x sep') - 1)%nat with (length sep') by (simpl; lia).
    rewrite split_from_skip by lia.
    assert (Hlt : (length (drop (length sep') r) < n)%nat).
    { subst n. simpl. pose proof (length_drop (length sep') r). lia. }
    exact (IH _ Hlt (drop (length sep') r) eq_refl).
  - assert (Hlt : (length r < n)%nat) by (subst n; simpl; lia).
    pose proof (IH _ Hlt r eq_refl) as Hr.
    pose proof (join_split sep r Hsep) as Hj. unfold split in Hj.
    destruct (split_from_cons sep 0 r) as (p & ps & E).
    rewrite E in Hr, Hj. rewrite E.
    pose proof (Forall_inv Hr) as Hfirst. simpl in Hfirst.
    constructor; [|exact (Forall_inv_tail Hr)].
    cbn [contains]. rewrite Hfirst, orb_false_r.
    destruct (prefix sep (String c p)) eqn:Hq; [|reflexivity].
    destruct (join_cons_app sep p ps) as (t & Ht).
    rewrite <- Hj, Ht in Hp.
    change (String c (p ++ t)) with (String c p ++ t) in Hp.
    now rewrite (prefix_app _ _ t Hq) in Hp.
Qed.

End PyFacts.

(** ** The text normalizer *)

Module NormalizerFacts.
Import Py PyFacts Normalizer.

Lemma strip_tags_plain (s : string) :
  markup_free s = true -> Reference.strip_tags false s = s.
Proof.
  unfold markup_free.
  induction s as [|c r IH]; simpl; [reflexivity|].
  intros H. apply andb_prop in H. destruct H as [Hc Hr].
  apply andb_prop in Hc. destruct Hc as [Hlt _].
  destruct (code c =? 60)%nat; [discriminate|].
  f_equal. now apply IH.
Qed.

Lemma reference_get_text_keeps_trimmed : get_text_keeps_trimmed Reference.libs.
Proof. intros s H _. now apply strip_tags_plain. Qed.

Section WithLibs.
Context {L : TextLibs}.

(** The normalized text holds word characters and whitespace only. *)
Lemma preprocess_text_chars (s : string) :
  forallb_chars (fun c => isword c || isspace c)
    (preprocess_text (VStr s) false) = true.
Proof.
  simpl. apply forallb_chars_strip. unfold remove_punctuation.
  apply forallb_chars_filter.
Qed.

(** Normalizing a trimmed text of word characters and whitespace that is
    already lower-case and holds no URL returns it. *)
Lemma preprocess_text_clean (r : string) :
  get_text_keeps_trimmed L ->
  forallb_chars (fun c => isword c || isspace c) r = true ->
  strip r = r -> lower r = r -> remove_urls r = r ->
  preprocess_text (VStr r) false = r.
Proof.
  intros HL Hr Hstrip Hlow Hurl. simpl.
  rewrite Hlow, Hurl. unfold remove_html_tags.
  rewrite HL.
  - unfold remove_punctuation. now rewrite filter_chars_id.
  - unfold markup_free.
    apply (forallb_chars_weaken _ _ r word_or_space_not_markup Hr).
  - exact Hstrip.
Qed.

End WithLibs.

(** Normalizing [ht.tp.x] twice is not normalizing it once, whatever the
    HTML parser does with markup. *)
Lemma preprocess_text_twice_differs (L : TextLibs) :
  get_text_keeps_trimmed L ->
  preprocess_text (VStr "ht.tp.x") false = "httpx"
  /\ preprocess_text (VStr "httpx") false = "".
Proof.
  destruct L as [html tokens base]. unfold get_text_keeps_trimmed. simpl.
  intros HL. split; vm_compute.
  - rewrite (HL "ht.tp.x" eq_refl eq_refl). reflexivity.
  - rewrite (HL "" eq_refl eq_refl). reflexivity.
Qed.

(** C9. Whatever the lemmatization flag, [preprocess_text] returns the
    empty string for every argument that is not a [str]; the function is
    total, so no exception is raised. *)
Theorem preprocess_text_non_string (L : TextLibs) (text : value)
    (apply_lemmatization : bool) :
  isinstance_str text = false ->
  preprocess_text text apply_lemmatization = "".
Proof.
  destruct text; simpl; intros H; try reflexivity; discriminate.
Qed.

Lemma preprocess_text_non_string_witness :
  isinstance_str (VInt 42) = false /\
  @preprocess_text Reference.libs (VInt 42) true = "".
Proof.
  split; [reflexivity|].
  apply (preprocess_text_non_string Reference.libs (VInt 42) true).
  reflexivity.
Defined.

(** C2, as stated, fails: with lemmatization off, the text [ht.tp.x]
    normalizes to [httpx] (the dots go with the punctuation), and
    normalizing [httpx] removes it as a URL. *)
Lemma preprocess_text_not_idempotent :
  @preprocess_text Reference.libs
    (VStr (@preprocess_text Reference.libs (VStr "ht.tp.x") false)) false
  <> @preprocess_text Reference.libs (VStr "ht.tp.x") false.
Proof.
  destruct (preprocess_text_twice_differs Reference.libs
              reference_get_text_keeps_trimmed)
    as [H1 H2].
  rewrite H1, H2. discriminate.
Qed.

(** C2, amended. With lemmatization off, and an HTML parser that returns
    a trimmed text without [<] and [&] as it is, normalizing a normalized
    text again returns it unchanged whenever that text is lower-case and
    holds no match of the URL pattern. *)
Theorem preprocess_text_idempotent_without_urls (L : TextLibs) (s : string) :
  get_text_keeps_trimmed L ->
  lower (preprocess_text (VStr s) false) = preprocess_text (VStr s) false ->
  remove_urls (preprocess_text (VStr s) false) = preprocess_text (VStr s) false ->
  preprocess_text (VStr (preprocess_text (VStr s) false)) false
  = preprocess_text (VStr s) false.
Proof.
  intros HL Hlow Hurl.
  apply (preprocess_text_clean _ HL (preprocess_text_chars s)); [|exact Hlow|exact Hurl].
  simpl. apply strip_idem.
Qed.

Lemma preprocess_text_idempotent_without_urls_witness :
  @preprocess_text Reference.libs
    (VStr (@preprocess_text Reference.libs (VStr "Hello, <b>World</b>!  ") false)) false
  = @preprocess_text Reference.libs (VStr "Hello, <b>World</b>!  ") false.
Proof.
  apply (preprocess_text_idempotent_without_urls Reference.libs
           "Hello, <b>World</b>!  " reference_get_text_keeps_trimmed);
    vm_compute; reflexivity.
Defined.

End NormalizerFacts.

(** ** The dispatcher *)

Module DispatcherFacts.
Import Py Normalizer Parser.

(** C1, as stated, fails: the tag is compared as it is, so the upper-case
    tag is refused. *)
Lemma parse_transcript_data_upper_case_refused :
  @parse_transcript_data Reference.libs "Budget approved." "TXT" false
  = Raises (ValueError
      "Unsupported transcript file type: TXT. Only TXT and SRT are supported.").
Proof. reflexivity. Qed.

(** C1, amended. For every content and flag the dispatcher succeeds on
    the tags [txt] and [srt] exactly as written, handing the content to
    the plain-text and to the subtitle parser, and for every other tag
    it fails with a [ValueError] whose message carries the tag. *)
Theorem parse_transcript_data_exact_tags (L : TextLibs)
    (file_object file_type : string) (apply_lemmatization : bool) :
  file_type <> "txt" -> file_type <> "srt" ->
  parse_transcript_data file_object "txt" apply_lemmatization
    = Returns (parse_txt_transcript file_object apply_lemmatization)
  /\ parse_transcript_data file_object "srt" apply_lemmatization
    = Returns (parse_srt_transcript file_object apply_lemmatization)
  /\ parse_transcript_data file_object file_type apply_lemmatization
    = Raises (ValueError ("Unsupported transcript file type: " ++ file_type
                          ++ ". Only TXT and SRT are supported.")).
Proof.
  intros Htxt Hsrt. repeat split.
  unfold parse_transcript_data.
  destruct (String.eqb_spec file_type "txt") as [E|_]; [contradiction|].
  destruct (String.eqb_spec file_type "srt") as [E|_]; [contradiction|].
  reflexivity.
Qed.

Lemma parse_transcript_data_exact_tags_witness :
  @parse_transcript_data Reference.libs "Budget approved." "txt" false
    = Returns ["budget approved"]
  /\ @parse_transcript_data Reference.libs "Budget approved." "csv" false
    = Raises (ValueError
        "Unsupported transcript file type: csv. Only TXT and SRT are supported.").
Proof.
  destruct (parse_transcript_data_exact_tags Reference.libs
              "Budget approved." "csv" false) as (Ht & _ & Hc);
    [discriminate | discriminate |].
  split; [rewrite Ht; reflexivity | exact Hc].
Defined.

End DispatcherFacts.

(** ** The subtitle parser *)

Module SubtitleFacts.
Import Py PyFacts Normalizer Parser SubtitleSpec.

Local Arguments preprocess_text : simpl never.

Lemma is_index_strip (line : string) : is_index line = true -> strip line = line.
Proof.
  unfold is_index. intros H. apply andb_prop in H. destruct H as [_ H].
  assert (Hns : forallb_chars (fun c => negb (isspace c)) line = true).
  { apply (forallb_chars_weaken isdigit); [|exact H].
    intros c Hc. now rewrite (isdigit_not_space c Hc). }
  clear H. unfold strip.
  assert (Hl : lstrip line = line).
  { destruct line as [|c r]; simpl in *; [reflexivity|].
    apply andb_prop in Hns. destruct Hns as [Hc _].
    destruct (isspace c); [discriminate|reflexivity]. }
  rewrite Hl. clear Hl.
  induction line as [|c r IH]; simpl in *; [reflexivity|].
  apply andb_prop in Hns. destruct Hns as [Hc Hr].
  rewrite (IH Hr). destruct r; [|reflexivity].
  destruct (isspace c); [discriminate|reflexivity].
Qed.

Lemma is_timestamp_strip (line : string) :
  is_timestamp line = true -> strip line = line.
Proof.
  unfold is_timestamp, timestamp_pattern, clock_pattern. simpl.
  intros H.
  repeat (destruct line as [|? line]; [discriminate H|];
          apply andb_prop in H; destruct H as [? H]).
  destruct line; [|discriminate H].
  repeat match goal with
         | h : isdigit ?c = true |- _ => apply isdigit_not_space in h
         | h : Ascii.eqb ?c ?d = true |- _ => apply Ascii.eqb_eq in h; subst c
         end.
  unfold strip. simpl.
  repeat match goal with
         | h : isspace ?c = false |- _ => rewrite h; clear h; simpl
         end.
  reflexivity.
Qed.

Lemma is_timestamp_truthy (line : string) : is_timestamp line = true -> truthy line = true.
Proof. destruct line; [discriminate|reflexivity]. Qed.

Lemma blocks_of_cons (lines : list string) :
  exists block blocks, blocks_of lines = block :: blocks.
Proof.
  induction lines as [|line rest IH]; simpl; [now eexists; eexists|].
  destruct IH as (b & bs & E). rewrite E.
  destruct (blank line); now eexists; eexists.
Qed.

Section WithLibs.
Context {L : TextLibs}.

Lemma srt_step_discards (b : bool) (st : srt_state) (line : string) :
  is_index line = true \/ is_timestamp line = true ->
  srt_step b st line = st.
Proof.
  intros [H|H]; unfold srt_step.
  - rewrite (is_index_strip _ H). pose proof H as H'.
    unfold is_index in H'. apply andb_prop in H'. destruct H' as [Ht _].
    now rewrite Ht, H.
  - rewrite (is_timestamp_strip _ H), (is_timestamp_truthy _ H), H. simpl.
    now destruct (is_index line).
Qed.

Lemma srt_loop_app (b : bool) (l1 l2 : list string) (st : srt_state) :
  srt_loop (l1 ++ l2) b st = srt_loop l2 b (srt_loop l1 b st).
Proof.
  revert st. induction l1 as [|x l1 IH]; intros st; simpl; [reflexivity|].
  apply IH.
Qed.

(** The loop against the blocks of the lines it has not read yet. *)
Lemma srt_loop_blocks (b : bool) (lines : list string) (st : srt_state) :
  preprocess_text (VStr "") b = "" ->
  final_flush b (srt_loop lines b st)
  = utterances st
    ++ emit b (current_utterance_lines st)
         (map (filter content_line) (blocks_of (map strip lines))).
Proof.
  intros Hempty. revert st.
  induction lines as [|line rest IH]; intros [utts cur].
  - simpl. rewrite app_nil_r. unfold final_flush, flush. simpl.
    destruct cur as [|c cs]; simpl.
    + rewrite Hempty. simpl. now rewrite app_nil_r.
    + destruct (truthy _); [reflexivity|now rewrite app_nil_r].
  - simpl srt_loop. rewrite IH. clear IH.
    simpl map. simpl blocks_of.
    destruct (blocks_of_cons (map strip rest)) as (blk & blks & E).
    rewrite E. unfold srt_step, blank.
    destruct (truthy (strip line)) eqn:Ht; simpl negb; cbv iota.
    + unfold content_line.
      destruct (is_index (strip line)) eqn:Hi; simpl.
      { rewrite Hi. reflexivity. }
      rewrite Hi.
      destruct (is_timestamp (strip line)) eqn:Hs; simpl.
      { reflexivity. }
      now rewrite <- app_assoc.
    + simpl. rewrite app_nil_r.
      destruct cur as [|c cs]; simpl.
      * rewrite Hempty. reflexivity.
      * unfold flush. simpl.
        match goal with
        | |- (if truthy ?u then _ else _) ++ _ = _ => destruct (truthy u)
        end; [rewrite <- app_assoc|]; reflexivity.
Qed.

Lemma emit_utterances_of (b : bool) (blocks : list (list string)) :
  blocks <> [] ->
  emit b [] (map (filter content_line) blocks) = utterances_of b blocks.
Proof.
  destruct blocks as [|blk blks]; [congruence|]. intros _.
  unfold emit, utterances_of, block_text. simpl.
  now rewrite map_map.
Qed.

Lemma parse_srt_transcript_refines (content : string) (b : bool) :
  preprocess_text (VStr "") b = "" ->
  parse_srt_transcript content b = srt_spec content b.
Proof.
  intros Hempty. unfold parse_srt_transcript, srt_lines, srt_spec.
  rewrite (srt_loop_blocks b _ _ Hempty). simpl.
  apply emit_utterances_of.
  destruct (blocks_of_cons (map strip (split newline content))) as (x & y & E).
  rewrite E. discriminate.
Qed.

Lemma parse_sample_block :
  get_text "hello world." = "hello world." ->
  parse_srt_transcript sample_block false = ["hello world"].
Proof.
  destruct L as [html tokens base]. simpl.
  intros HL. vm_compute. rewrite HL. reflexivity.
Qed.

(** A run of lines none of which is blank only extends the current
    block. *)
Lemma srt_loop_block (b : bool) (block : list string) (st : srt_state) :
  Forall (fun line => strip line <> "") block ->
  srt_loop block b st
  = {| utterances := utterances st;
       current_utterance_lines :=
         current_utterance_lines st ++ filter content_line (map strip block) |}.
Proof.
  intros H. revert st.
  induction H as [|line rest Hline _ IH]; intros [utts cur]; simpl.
  - now rewrite app_nil_r.
  - rewrite IH. unfold srt_step, content_line. simpl.
    apply truthy_true in Hline. rewrite Hline. simpl.
    destruct (is_index (strip line)); simpl; [reflexivity|].
    destruct (is_timestamp (strip line)); simpl; [reflexivity|].
    now rewrite <- app_assoc.
Qed.

(** A blank line leaves no block open. *)
Lemma srt_step_blank (b : bool) (st : srt_state) (line : string) :
  strip line = "" -> current_utterance_lines (srt_step b st line) = [].
Proof.
  intros H. unfold srt_step. rewrite H. simpl.
  destruct (current_utterance_lines st) eqn:E; [exact E|reflexivity].
Qed.

End WithLibs.

(** C6. Whatever the libraries do, the subtitle parser drops every
    pure-digit line and every line that matches the timestamp pattern.
    When the normalizer returns the empty string for the empty string, the
    parser's result is that of the block reading: the lines, trimmed, are
    cut into blocks at the blank lines, the index and timestamp lines of
    each block are dropped, the others are joined with one space and
    normalized, and the non-empty results are kept in order.  When the
    HTML parser returns the text [hello world.] as it is, the result on the
    sample block is the single utterance [hello world]. *)
Theorem parse_srt_transcript_blocks (L : TextLibs) (content : string) (b : bool) :
  (forall st line,
      is_index line = true \/ is_timestamp line = true ->
      srt_step b st line = st)
  /\ (preprocess_text (VStr "") b = "" ->
      parse_srt_transcript content b = srt_spec content b)
  /\ (get_text "hello world." = "hello world." ->
      parse_srt_transcript sample_block false = ["hello world"]).
Proof.
  split; [|split].
  - intros st line H. now apply srt_step_discards.
  - intros Hempty. now apply parse_srt_transcript_refines.
  - intros Hsample. now apply parse_sample_block.
Qed.

Lemma parse_srt_transcript_blocks_witness :
  @parse_srt_transcript Reference.libs
    ("7" ++ newline ++ "00:00:03,000 --> 00:00:05,000" ++ newline
     ++ "This is" ++ newline ++ "a <i>test</i>." ++ newline ++ newline
     ++ "8" ++ newline ++ "Bye!") true
  = ["this is a test"; "bye"]
  /\ @parse_srt_transcript Reference.libs sample_block false = ["hello world"].
Proof.
  destruct (parse_srt_transcript_blocks Reference.libs
    ("7" ++ newline ++ "00:00:03,000 --> 00:00:05,000" ++ newline
     ++ "This is" ++ newline ++ "a <i>test</i>." ++ newline ++ newline
     ++ "8" ++ newline ++ "Bye!") true)
    as (_ & Hspec & Hsample).
  split.
  - rewrite Hspec; vm_compute; reflexivity.
  - apply Hsample. reflexivity.
Defined.

(** C7. When the lines of the input end in a block with no blank line
    after it, the parser returns what it returns for the lines before
    that block, followed by the utterance of the block: its lines that
    are neither index nor timestamp, joined with one space and
    normalized, when there are such lines and the result is not empty. *)
Theorem parse_srt_transcript_trailing_block (L : TextLibs) (content : string)
    (b : bool) (before block : list string) :
  split newline content = before ++ block ->
  (before = [] \/ exists lines sep, before = lines ++ [sep] /\ strip sep = "") ->
  Forall (fun line => strip line <> "") block ->
  parse_srt_transcript content b
  = srt_lines before b ++ trailing_utterance b block.
Proof.
  intros Hsplit Hbefore Hblock.
  unfold parse_srt_transcript. rewrite Hsplit. unfold srt_lines.
  rewrite srt_loop_app, (srt_loop_block b block _ Hblock).
  set (st := srt_loop before b _).
  assert (Hcur : current_utterance_lines st = []).
  { subst st. destruct Hbefore as [->|(lines & sep & -> & Hsep)]; [reflexivity|].
    rewrite srt_loop_app. simpl. now apply srt_step_blank. }
  unfold final_flush, flush, trailing_utterance. simpl.
  rewrite Hcur. simpl.
  destruct (filter content_line (map strip block)) as [|k ks].
  - now rewrite app_nil_r.
  - destruct (truthy _); [reflexivity|now rewrite app_nil_r].
Qed.

Lemma parse_srt_transcript_trailing_block_witness :
  @parse_srt_transcript Reference.libs
    ("1" ++ newline ++ "00:00:00,000 --> 00:00:02,500" ++ newline
     ++ "Hello world." ++ newline ++ newline
     ++ "2" ++ newline ++ "Budget" ++ newline ++ "approved!") false
  = ["hello world"; "budget approved"].
Proof.
  rewrite (parse_srt_transcript_trailing_block Reference.libs _ false
             ["1"; "00:00:00,000 --> 00:00:02,500"; "Hello world."; ""]
             ["2"; "Budget"; "approved!"]).
  - vm_compute. reflexivity.
  - vm_compute. reflexivity.
  - right. exists ["1"; "00:00:00,000 --> 00:00:02,500"; "Hello world."], "".
    split; reflexivity.
  - repeat constructor; vm_compute; discriminate.
Defined.

End SubtitleFacts.

(** ** The completion client *)

Module ClientFacts.
Import Py PyFacts Client.

Lemma sleeps_of_app (t1 t2 : list event) :
  sleeps_of (t1 ++ t2) = sleeps_of t1 ++ sleeps_of t2.
Proof.
  induction t1 as [|[p o|d] r IH]; simpl; [reflexivity|exact IH|now rewrite IH].
Qed.

Lemma attempts_of_app (t1 t2 : list event) :
  attempts_of (t1 ++ t2) = (attempts_of t1 + attempts_of t2)%nat.
Proof.
  unfold attempts_of. now rewrite filter_app, length_app.
Qed.

Lemma nanoseconds_nonneg (delay : Q) : 0 <= delay -> 0 <= nanoseconds delay.
Proof.
  intros H. unfold nanoseconds. apply Qmult_le_0_compat; [exact H|].
  vm_compute. discriminate.
Qed.

Lemma accepted_fits (delay : Q) :
  accepted delay = true -> fits_clock delay = true /\ Qle_bool 0 delay = true.
Proof.
  unfold accepted, fits_clock. intros H. apply andb_prop in H.
  destruct H as [H0 H1]. rewrite H0. split; [|reflexivity].
  apply Qle_bool_iff in H0. apply Qle_bool_iff in H1.
  apply andb_true_intro. split; apply Qle_bool_iff.
  - apply Qle_trans with 0; [|now apply nanoseconds_nonneg].
    vm_compute. discriminate.
  - apply Qle_trans with (inject_Z (2 ^ 62)); [exact H1|].
    vm_compute. discriminate.
Qed.

Lemma beyond_clock_fits (delay : Q) :
  beyond_clock delay = true -> fits_clock delay = false.
Proof.
  unfold beyond_clock, fits_clock. intros H.
  apply andb_false_iff. apply orb_prop in H. destruct H as [H|H];
    apply Qle_bool_iff in H.
  - right. apply not_true_is_false. intros H'. apply Qle_bool_iff in H'.
    pose proof (Qle_trans _ _ _ H H') as C.
    vm_compute in C. now apply C.
  - left. apply not_true_is_false. intros H'. apply Qle_bool_iff in H'.
    pose proof (Qle_trans _ _ _ H' H) as C.
    vm_compute in C. now apply C.
Qed.

Lemma time_sleep_accepted {service : Type} (delay : Q) (w : world service) :
  accepted delay = true ->
  time_sleep delay w
  = Returns {| model_instance := model_instance w;
               trace := trace w ++ [Sleep delay] |}.
Proof.
  intros H. unfold time_sleep.
  destruct (accepted_fits delay H) as [-> ->]. reflexivity.
Qed.

Lemma time_sleep_refused {service : Type} (delay : Q) (w : world service) :
  refused delay = true ->
  time_sleep delay w
  = Raises (if beyond_clock delay then OverflowError
            else ValueError "sleep length must be non-negative").
Proof.
  intros H. unfold time_sleep, refused in *.
  destruct (beyond_clock delay) eqn:Hb.
  - now rewrite (beyond_clock_fits delay Hb).
  - cbn [orb] in H. apply andb_prop in H. destruct H as [-> Hneg].
    apply negb_true_iff in Hneg. now rewrite Hneg.
Qed.

Section WithService.
Variable service : Type.
Variable generate_content : service -> string -> outcome * service.

Lemma sleeps_of_backoff_trace (prompt : string) (n : nat) (m : service) (d : Q) :
  sleeps_of (backoff_trace generate_content prompt n m d) = backoff n d.
Proof.
  revert m d. induction n as [|k IH]; intros m d; simpl; [reflexivity|].
  now rewrite IH.
Qed.

Lemma attempts_of_backoff_trace (prompt : string) (n : nat) (m : service) (d : Q) :
  attempts_of (backoff_trace generate_content prompt n m d) = n.
Proof.
  revert m d. induction n as [|k IH]; intros m d; [reflexivity|].
  unfold attempts_of in *. simpl. now rewrite IH.
Qed.

Lemma state_after_succ (prompt : string) (n : nat) (m : service) :
  state_after generate_content prompt (S n) m
  = snd (generate_content (state_after generate_content prompt n m) prompt).
Proof.
  revert m. induction n as [|n IH]; intros m; [reflexivity|].
  simpl. apply (IH (snd (generate_content m prompt))).
Qed.

(** With enough fuel the loop always comes to a result. *)
Lemma retry_loop_total (prompt : string) (max_retries : Z) (fuel : nat) :
  forall retries delay w,
    (Z.to_nat (max_retries - retries) <= fuel)%nat ->
    exists r w', retry_loop generate_content fuel prompt max_retries retries delay w = Some (r, w').
Proof.
  induction fuel as [|fuel IH]; intros retries delay w Hfuel.
  - simpl. destruct (Z.ltb_spec retries max_retries) as [Hlt|Hge]; [lia|].
    now eexists; eexists.
  - simpl. destruct (Z.ltb_spec retries max_retries) as [Hlt|Hge];
      [|now eexists; eexists].
    destruct (call_service generate_content prompt w) as [[text|[e|e]] w1].
    + destruct (truthy text); now eexists; eexists.
    + destruct (Z.ltb_spec (retries + 1) max_retries) as [Hlt'|Hge'];
        [|now eexists; eexists].
      destruct (time_sleep delay w1) as [w2|x]; [|now eexists; eexists].
      apply IH. lia.
    + now eexists; eexists.
Qed.

Lemma make_gemini_call_with_retry_total (prompt : string) (max_retries : Z)
    (initial_delay : Q) (w : world service) :
  exists r w',
    make_gemini_call_with_retry generate_content prompt max_retries initial_delay w = Some (r, w').
Proof.
  apply retry_loop_total. rewrite Z.sub_0_r. apply le_n.
Qed.

(** [n] attempts that are all refused for quota, with more retries
    left after them: the loop sleeps after each and goes on. *)
Lemma retry_loop_backoff (prompt : string) (max_retries : Z) (fuel n : nat) :
  forall retries delay w,
    (retries + Z.of_nat n < max_retries)%Z ->
    forallb accepted (backoff n delay) = true ->
    (forall i, (i < n)%nat ->
               rate_limited (nth_outcome generate_content prompt i (model_instance w)) = true) ->
    retry_loop generate_content (n + fuel) prompt max_retries retries delay w
    = retry_loop generate_content fuel prompt max_retries (retries + Z.of_nat n) (delay_after n delay)
        {| model_instance := state_after generate_content prompt n (model_instance w);
           trace := trace w ++ backoff_trace generate_content prompt n (model_instance w) delay |}.
Proof.
  induction n as [|k IH]; intros retries delay [m tr] Hlt Hd Hall.
  - simpl. rewrite Z.add_0_r, app_nil_r. reflexivity.
  - change (S k + fuel)%nat with (S (k + fuel)).
    cbn [Client.retry_loop].
    destruct (Z.ltb_spec retries max_retries) as [_|Hge]; [|lia].
    pose proof (Hall O (Nat.lt_0_succ k)) as H0.
    unfold Client.nth_outcome in H0. simpl in H0.
    unfold call_service. simpl.
    destruct (generate_content m prompt) as [o m1] eqn:Eg. simpl in H0.
    destruct o as [text|[e|e]]; try discriminate H0.
    destruct (Z.ltb_spec (retries + 1) max_retries) as [_|Hge]; [|lia].
    cbn [backoff forallb] in Hd. apply andb_prop in Hd. destruct Hd as [Hd Hrest].
    rewrite (time_sleep_accepted delay _ Hd). cbn [model_instance trace].
    rewrite IH.
    + simpl. rewrite <- !app_assoc. simpl.
      replace (retries + 1 + Z.of_nat k)%Z with (retries + Z.pos (Pos.of_succ_nat k))%Z
        by lia.
      reflexivity.
    + lia.
    + exact Hrest.
    + intros i Hi. simpl.
      specialize (Hall (S i) (proj1 (Nat.succ_lt_mono i k) Hi)).
      unfold Client.nth_outcome in *. simpl in Hall. now rewrite Eg in Hall.
Qed.

End WithService.

(** C3. With the default seven retries and initial delay 1, a service
    that refuses the first two attempts for quota and answers the third
    with a non-empty text makes the client return that text trimmed;
    what is observed is the three attempts with a sleep of 1 after the
    first and a sleep of 2 after the second, and nothing else. *)
Theorem retry_twice_then_success (service : Type)
    (generate_content : service -> string -> outcome * service)
    (prompt : string) (m m1 m2 m3 : service) (e1 e2 text : string) :
  generate_content m prompt = (Throws (ResourceExhausted e1), m1) ->
  generate_content m1 prompt = (Throws (ResourceExhausted e2), m2) ->
  generate_content m2 prompt = (Response text, m3) ->
  text <> "" ->
  make_gemini_call_with_retry generate_content prompt
    default_max_retries default_initial_delay (start m)
  = Some (Returns (strip text),
          {| model_instance := m3;
             trace := [ Generate prompt (Throws (ResourceExhausted e1));
                        Sleep 1;
                        Generate prompt (Throws (ResourceExhausted e2));
                        Sleep 2;
                        Generate prompt (Response text) ] |})
  /\ sleeps_of [ Generate prompt (Throws (ResourceExhausted e1));
                 Sleep 1;
                 Generate prompt (Throws (ResourceExhausted e2));
                 Sleep 2;
                 Generate prompt (Response text) ] = [1; 2].
Proof.
  intros H1 H2 H3 Htext. split; [|reflexivity].
  apply truthy_true in Htext.
  unfold make_gemini_call_with_retry, default_max_retries, default_initial_delay.
  change (Z.to_nat 7) with 7%nat.
  cbn [retry_loop]. unfold call_service, start. simpl.
  rewrite H1. simpl. rewrite H2. simpl. rewrite H3. simpl. rewrite Htext.
  reflexivity.
Qed.

Lemma retry_twice_then_success_witness :
  make_gemini_call_with_retry Stub.twice_then_ok "Summarize."
    default_max_retries default_initial_delay (start 0%nat)
  = Some (Returns "The budget was approved.",
          {| model_instance := 3%nat;
             trace := [ Generate "Summarize." Stub.quota; Sleep 1;
                        Generate "Summarize." Stub.quota; Sleep 2;
                        Generate "Summarize." (Response "  The budget was approved. ") ] |}).
Proof.
  apply (proj1 (retry_twice_then_success nat Stub.twice_then_ok "Summarize."
                  0%nat 1%nat 2%nat 3%nat
                  "429 quota exceeded" "429 quota exceeded"
                  "  The budget was approved. "
                  eq_refl eq_refl eq_refl
                  ltac:(discriminate))).
Defined.

(** C4, as stated, fails: the backoff sleep is outside the [try], and
    [time.sleep] raises on a length it cannot take.  With two retries and
    an initial delay of ten thousand million seconds the first sleep
    raises [OverflowError] after a single attempt. *)
Lemma backoff_sleep_raises :
  make_gemini_call_with_retry Stub.always_limited "Summarize." 2
    (inject_Z (10 ^ 10)) (start 0%nat)
  = Some (Raises OverflowError,
          {| model_instance := 1%nat;
             trace := [Generate "Summarize." Stub.quota] |}).
Proof. vm_compute. reflexivity. Qed.

(** C4, amended. With at least one retry configured and backoff delays
    that [time.sleep] accepts, as the defaults are, a service that
    refuses every attempt for quota is called exactly [max_retries]
    times, with a backoff sleep after each attempt but the last; the
    client then returns, as an ordinary string, the failure message that
    names [max_retries] and ends with the error of the last attempt. *)
Theorem retries_exhausted (service : Type)
    (generate_content : service -> string -> outcome * service)
    (prompt : string) (max_retries : Z) (initial_delay : Q) (m : service) :
  (0 < max_retries)%Z ->
  forallb accepted (backoff (Z.to_nat max_retries - 1) initial_delay) = true ->
  (forall i, (i < Z.to_nat max_retries)%nat ->
             rate_limited (nth_outcome generate_content prompt i m) = true) ->
  exists e w',
    nth_outcome generate_content prompt (Z.to_nat max_retries - 1) m
      = Throws (ResourceExhausted e)
    /\ make_gemini_call_with_retry generate_content prompt max_retries
         initial_delay (start m)
       = Some (Returns ("Failed to get response after " ++ str_of_int max_retries
                        ++ " retries due to quota/rate limit: " ++ e)%string, w')
    /\ contains "Failed to get response"
         ("Failed to get response after " ++ str_of_int max_retries
          ++ " retries due to quota/rate limit: " ++ e) = true
    /\ attempts_of (trace w') = Z.to_nat max_retries
    /\ sleeps_of (trace w') = backoff (Z.to_nat max_retries - 1) initial_delay.
Proof.
  intros Hmax Hd Hall.
  set (n := (Z.to_nat max_retries - 1)%nat).
  assert (Hn : Z.to_nat max_retries = (n + 1)%nat) by (subst n; lia).
  pose proof (Hall n ltac:(lia)) as Hlast.
  destruct (nth_outcome generate_content prompt n m) as [text|[e|e]] eqn:En;
    try discriminate Hlast.
  exists e.
  exists {| model_instance := state_after generate_content prompt (S n) m;
            trace := backoff_trace generate_content prompt n m initial_delay
                     ++ [Generate prompt (Throws (ResourceExhausted e))] |}.
  split; [reflexivity|].
  split; [|split; [reflexivity|]].
  - unfold make_gemini_call_with_retry. rewrite Hn.
    rewrite (retry_loop_backoff service generate_content prompt max_retries 1 n);
      [|lia|exact Hd|intros i Hi; apply Hall; lia].
    cbn [retry_loop]. simpl Z.add.
    destruct (Z.ltb_spec (Z.of_nat n) max_retries) as [_|Hge]; [|lia].
    unfold call_service. cbn [model_instance trace start].
    unfold nth_outcome in En. rewrite state_after_succ.
    destruct (generate_content (state_after generate_content prompt n m) prompt)
      as [o m'] eqn:Eg.
    simpl in En. subst o.
    destruct (Z.ltb_spec (Z.of_nat n + 1) max_retries) as [Hlt|_]; [lia|].
    reflexivity.
  - cbn [trace]. rewrite attempts_of_app, sleeps_of_app. simpl.
    rewrite attempts_of_backoff_trace, sleeps_of_backoff_trace, app_nil_r.
    split; [|reflexivity].
    change (attempts_of [Generate prompt (Throws (ResourceExhausted e))]) with 1%nat.
    now rewrite Hn.
Qed.

Lemma retries_exhausted_witness :
  exists w',
    make_gemini_call_with_retry Stub.always_limited "Summarize." 7 1 (start 0%nat)
    = Some (Returns
              "Failed to get response after 7 retries due to quota/rate limit: 429 quota exceeded",
            w')
    /\ attempts_of (trace w') = 7%nat
    /\ sleeps_of (trace w') = [1; 2; 4; 8; 16; 32].
Proof.
  destruct (retries_exhausted nat Stub.always_limited "Summarize." 7 1 0%nat)
    as (e & w' & He & Hcall & _ & Hn & Hs).
  - reflexivity.
  - reflexivity.
  - intros i Hi. do 7 (destruct i as [|i]; [reflexivity|]). lia.
  - exists w'. injection He as <-. repeat split; assumption.
Defined.

(** C8. When the service raises an exception other than the quota one,
    the client returns the message built from that exception at once: in
    whatever round of the loop the call is made, the loop ends with it,
    and that call is the last thing observed.  So when the failing call is
    the first attempt, or comes after attempts refused for quota whose
    backoff sleeps were slept, the result is that message, and the only
    sleeps are those of the refused attempts before. *)
Theorem other_exception_returns_at_once (service : Type)
    (generate_content : service -> string -> outcome * service)
    (prompt : string) (max_retries : Z) (e : string) :
  (forall fuel retries delay w m',
      (retries < max_retries)%Z ->
      generate_content (model_instance w) prompt = (Throws (OtherException e), m') ->
      retry_loop generate_content (S fuel) prompt max_retries retries delay w
      = Some (Returns ("An unexpected API error occurred: " ++ e)%string,
              {| model_instance := m';
                 trace := trace w ++ [Generate prompt (Throws (OtherException e))] |}))
  /\ (forall initial_delay m k,
      (Z.of_nat k < max_retries)%Z ->
      forallb accepted (backoff k initial_delay) = true ->
      (forall i, (i < k)%nat ->
                 rate_limited (nth_outcome generate_content prompt i m) = true) ->
      nth_outcome generate_content prompt k m = Throws (OtherException e) ->
      exists tr,
        make_gemini_call_with_retry generate_content prompt max_retries
          initial_delay (start m)
        = Some (Returns ("An unexpected API error occurred: " ++ e)%string,
                {| model_instance := state_after generate_content prompt (S k) m;
                   trace := tr ++ [Generate prompt (Throws (OtherException e))] |})
        /\ attempts_of tr = k
        /\ sleeps_of tr = backoff k initial_delay).
Proof.
  assert (Hstep : forall fuel retries delay w m',
      (retries < max_retries)%Z ->
      generate_content (model_instance w) prompt = (Throws (OtherException e), m') ->
      retry_loop generate_content (S fuel) prompt max_retries retries delay w
      = Some (Returns ("An unexpected API error occurred: " ++ e)%string,
              {| model_instance := m';
                 trace := trace w ++ [Generate prompt (Throws (OtherException e))] |})).
  { intros fuel retries delay w m' Hlt Hg. cbn [retry_loop].
    destruct (Z.ltb_spec retries max_retries) as [_|Hge]; [|lia].
    unfold call_service. now rewrite Hg. }
  split; [exact Hstep|].
  intros initial_delay m k Hk Hd Hall Hfail.
  exists (backoff_trace generate_content prompt k m initial_delay).
  split; [|split].
  - unfold make_gemini_call_with_retry.
    replace (Z.to_nat max_retries) with (k + S (Z.to_nat max_retries - S k))%nat by lia.
    rewrite (retry_loop_backoff service generate_content prompt max_retries _ k);
      [|lia|exact Hd|exact Hall].
    unfold nth_outcome in Hfail. rewrite state_after_succ.
    destruct (generate_content (state_after generate_content prompt k m) prompt)
      as [o m'] eqn:Eg.
    simpl in Hfail. subst o.
    rewrite (Hstep _ _ _ _ m'); [reflexivity|simpl; lia|exact Eg].
  - apply attempts_of_backoff_trace.
  - apply sleeps_of_backoff_trace.
Qed.

Lemma other_exception_returns_at_once_witness :
  exists tr,
    make_gemini_call_with_retry Stub.once_then_broken "Summarize." 7 1 (start 0%nat)
    = Some (Returns "An unexpected API error occurred: 503 unavailable",
            {| model_instance := 2%nat;
               trace := tr ++ [Generate "Summarize."
                                 (Throws (OtherException "503 unavailable"))] |})
    /\ attempts_of tr = 1%nat
    /\ sleeps_of tr = [1].
Proof.
  apply (proj2 (other_exception_returns_at_once nat Stub.once_then_broken
                  "Summarize." 7 "503 unavailable") 1 0%nat 1%nat).
  - reflexivity.
  - reflexivity.
  - intros i Hi. destruct i as [|i]; [reflexivity|lia].
  - reflexivity.
Defined.

(** C10. With [max_retries] at most 0 the loop body is never entered:
    the client returns the fixed message and the observer is left as it
    was, the service not called and in its old state. *)
Theorem no_attempt_without_retries (service : Type)
    (generate_content : service -> string -> outcome * service)
    (prompt : string) (max_retries : Z) (initial_delay : Q) (w : world service) :
  (max_retries <= 0)%Z ->
  make_gemini_call_with_retry generate_content prompt max_retries initial_delay w
  = Some (Returns "Failed to get response after multiple retries (unknown reason).", w).
Proof.
  intros H. unfold make_gemini_call_with_retry.
  destruct (Z.to_nat max_retries); simpl;
    destruct (Z.ltb_spec 0 max_retries); try lia; reflexivity.
Qed.

Lemma no_attempt_without_retries_witness :
  make_gemini_call_with_retry Stub.always_limited "Summarize." 0 1 (start 0%nat)
  = Some (Returns "Failed to get response after multiple retries (unknown reason).",
          start 0%nat).
Proof.
  apply (no_attempt_without_retries nat Stub.always_limited "Summarize." 0 1
           (start 0%nat)).
  discriminate.
Defined.

End ClientFacts.

(** ** The analysis functions *)

Module AnalysisFacts.
Import Py PyFacts Client Analysis.






End AnalysisFacts.

(** ** The completion client: every run *)

Module ClientRuns.
Import Py PyFacts Client ClientFacts ClientSpec.

Section WithService.
Variable service : Type.
Variable generate_content : service -> string -> outcome * service.

Lemma same_prompt_backoff_trace (prompt : string) (n : nat) (m : service) (d : Q) :
  Forall (same_prompt prompt) (backoff_trace generate_content prompt n m d).
Proof.
  revert m d. induction n as [|n IH]; intros m d; simpl; [constructor|].
  constructor; [reflexivity|]. constructor; [exact I|]. apply IH.
Qed.

(** Whatever the service does, an entered loop ends after some attempts
    refused for quota, each followed by its sleep, and one last attempt. *)
Lemma retry_loop_shape (prompt : string) (max_retries : Z) (fuel : nat) :
  forall retries delay w r w',
    (retries < max_retries)%Z ->
    retry_loop generate_content fuel prompt max_retries retries delay w = Some (r, w') ->
    exists n,
      (retries + Z.of_nat n < max_retries)%Z
      /\ trace w' = trace w
                    ++ backoff_trace generate_content prompt n (model_instance w) delay
                    ++ [Generate prompt
                          (nth_outcome generate_content prompt n (model_instance w))]
      /\ model_instance w'
         = state_after generate_content prompt (S n) (model_instance w).
Proof.
  induction fuel as [|fuel IH]; intros retries delay [m tr] r w' Hlt H.
  - simpl in H. destruct (Z.ltb_spec retries max_retries); [discriminate|lia].
  - cbn [retry_loop] in H.
    destruct (Z.ltb_spec retries max_retries) as [_|Hge]; [|lia].
    unfold call_service in H. cbn [model_instance trace] in H.
    assert (Hstop : forall r0,
      Some (r0, {| model_instance := snd (generate_content m prompt);
                   trace := tr ++ [Generate prompt (fst (generate_content m prompt))] |})
      = Some (r, w') ->
      exists n,
        (retries + Z.of_nat n < max_retries)%Z
        /\ trace w' = trace {| model_instance := m; trace := tr |}
                      ++ backoff_trace generate_content prompt n m delay
                      ++ [Generate prompt (nth_outcome generate_content prompt n m)]
        /\ model_instance w' = state_after generate_content prompt (S n) m).
    { intros r0 E. injection E as _ <-. exists O. simpl.
      split; [lia|]. split; reflexivity. }
    destruct (generate_content m prompt) as [o m1] eqn:Eg. simpl in Hstop.
    destruct o as [text|[e|e]].
    + destruct (truthy text); exact (Hstop _ H).
    + destruct (Z.ltb_spec (retries + 1) max_retries) as [Hlt1|_]; [|exact (Hstop _ H)].
      unfold time_sleep in H. cbn [model_instance trace] in H.
      destruct (fits_clock delay); [|exact (Hstop _ H)].
      destruct (Qle_bool 0 delay); [|exact (Hstop _ H)].
      apply IH in H; [|exact Hlt1].
      destruct H as (n & Hn & Htr & Hm). cbn [model_instance trace] in Htr, Hm.
      exists (S n). split; [lia|]. cbn [model_instance trace].
      split.
      * rewrite Htr. simpl. unfold nth_outcome. simpl. rewrite Eg. simpl.
        now rewrite <- !app_assoc.
      * rewrite Hm. simpl. now rewrite Eg.
    + exact (Hstop _ H).
Qed.

(** When every backoff delay that the retries left could sleep is one
    [time.sleep] accepts, the loop returns a string. *)
Lemma retry_loop_returns (prompt : string) (max_retries : Z) (fuel : nat) :
  forall retries delay w,
    (Z.to_nat (max_retries - retries) <= fuel)%nat ->
    forallb accepted (backoff (Z.to_nat (max_retries - retries) - 1) delay) = true ->
    exists s w',
      retry_loop generate_content fuel prompt max_retries retries delay w
      = Some (Returns s, w').
Proof.
  induction fuel as [|fuel IH]; intros retries delay w Hfuel Hd.
  - simpl. destruct (Z.ltb_spec retries max_retries) as [Hlt|Hge]; [lia|].
    now eexists; eexists.
  - simpl. destruct (Z.ltb_spec retries max_retries) as [Hlt|Hge];
      [|now eexists; eexists].
    destruct (call_service generate_content prompt w) as [[text|[e|e]] w1].
    + destruct (truthy text); now eexists; eexists.
    + destruct (Z.ltb_spec (retries + 1) max_retries) as [Hlt'|Hge'];
        [|now eexists; eexists].
      replace (Z.to_nat (max_retries - retries) - 1)%nat
        with (S (Z.to_nat (max_retries - (retries + 1)) - 1)) in Hd by lia.
      cbn [backoff forallb] in Hd. apply andb_prop in Hd. destruct Hd as [Hd Hrest].
      rewrite (time_sleep_accepted delay _ Hd).
      apply IH; [lia|exact Hrest].
    + now eexists; eexists.
Qed.

End WithService.

(** X1. Whatever the service does, one call of the client makes at most
    [max_retries] attempts, all with the prompt it was given, and the
    sleeps between them are the backoff delays [d], [2d], [4d], ... one
    fewer than the attempts. *)
Theorem client_run_bounded (service : Type)
    (generate_content : service -> string -> outcome * service)
    (prompt : string) (max_retries : Z) (initial_delay : Q)
    (w w' : world service) (r : result string) :
  make_gemini_call_with_retry generate_content prompt max_retries initial_delay w
    = Some (r, w') ->
  exists new,
    trace w' = trace w ++ new
    /\ (attempts_of new <= Z.to_nat max_retries)%nat
    /\ sleeps_of new = backoff (attempts_of new - 1) initial_delay
    /\ Forall (same_prompt prompt) new.
Proof.
  intros H. unfold make_gemini_call_with_retry in H.
  destruct (Z.ltb_spec 0 max_retries) as [Hpos|Hneg].
  - apply retry_loop_shape in H; [|exact Hpos].
    destruct H as (n & Hn & Htr & _).
    eexists. split; [exact Htr|].
    rewrite attempts_of_app, sleeps_of_app, attempts_of_backoff_trace,
      sleeps_of_backoff_trace.
    change (attempts_of [Generate prompt _]) with 1%nat. simpl sleeps_of.
    rewrite app_nil_r. replace (n + 1 - 1)%nat with n by lia.
    split; [lia|]. split; [reflexivity|].
    apply Forall_app. split; [apply same_prompt_backoff_trace|].
    now repeat constructor.
  - exists []. rewrite app_nil_r.
    assert (Hw : w' = w).
    { destruct (Z.to_nat max_retries); simpl in H;
        destruct (Z.ltb_spec 0 max_retries); try lia;
        now injection H as _ <-. }
    subst w'. split; [reflexivity|]. split; [apply Nat.le_0_l|].
    split; [reflexivity|constructor].
Qed.

Lemma client_run_bounded_witness :
  exists new,
    new = [Generate "Summarize." Stub.quota; Sleep 1;
           Generate "Summarize." Stub.quota; Sleep 2;
           Generate "Summarize." Stub.quota]
    /\ (attempts_of new <= 3)%nat
    /\ sleeps_of new = backoff (attempts_of new - 1) 1.
Proof.
  destruct (client_run_bounded nat Stub.always_limited "Summarize." 3 1
              (start 0%nat)
              {| model_instance := 3%nat;
                 trace := [Generate "Summarize." Stub.quota; Sleep 1;
                           Generate "Summarize." Stub.quota; Sleep 2;
                           Generate "Summarize." Stub.quota] |}
              (Returns "Failed to get response after 3 retries due to quota/rate limit: 429 quota exceeded")
              eq_refl)
    as (new & Htr & Hn & Hs & _).
  exists new. simpl in Htr. now subst new.
Defined.

(** X2. When the backoff delays [d], [2d], ... that the retry count allows
    are all delays [time.sleep] accepts (not negative and at most half the
    range of its clock, as the defaults are), the client returns a string
    for every service and prompt: no error of the service and no exhausted
    retry budget makes it raise. *)
Theorem client_never_raises (service : Type)
    (generate_content : service -> string -> outcome * service)
    (prompt : string) (max_retries : Z) (initial_delay : Q) (w : world service) :
  forallb accepted (backoff (Z.to_nat max_retries - 1) initial_delay) = true ->
  exists s w',
    make_gemini_call_with_retry generate_content prompt max_retries initial_delay w
    = Some (Returns s, w').
Proof.
  intros Hd. apply retry_loop_returns; rewrite Z.sub_0_r; [apply le_n|exact Hd].
Qed.

Lemma client_never_raises_witness :
  exists s w',
    make_gemini_call_with_retry Stub.once_then_broken "Summarize." 7 1 (start 0%nat)
    = Some (Returns s, w').
Proof.
  apply (client_never_raises nat Stub.once_then_broken "Summarize." 7 1 (start 0%nat)).
  reflexivity.
Defined.

(** X3. The first attempt that is answered decides the call: after [k]
    attempts refused for quota, with retries left and backoff sleeps that
    [time.sleep] accepts, a response whose text is not empty is returned
    trimmed and one whose text is empty is reported by the fixed message;
    in both cases there is no further attempt, and the sleeps are the [k]
    backoff sleeps before. *)
Theorem first_response_decides (service : Type)
    (generate_content : service -> string -> outcome * service)
    (prompt : string) (max_retries : Z) (initial_delay : Q) (m : service)
    (k : nat) (text : string) :
  (Z.of_nat k < max_retries)%Z ->
  forallb accepted (backoff k initial_delay) = true ->
  (forall i, (i < k)%nat ->
             rate_limited (nth_outcome generate_content prompt i m) = true) ->
  nth_outcome generate_content prompt k m = Response text ->
  exists tr,
    make_gemini_call_with_retry generate_content prompt max_retries
      initial_delay (start m)
    = Some (Returns (if truthy text then strip text
                     else "AI response was empty or blocked, possibly due to safety settings."),
            {| model_instance := state_after generate_content prompt (S k) m;
               trace := tr ++ [Generate prompt (Response text)] |})
    /\ attempts_of tr = k
    /\ sleeps_of tr = backoff k initial_delay.
Proof.
  intros Hk Hd Hall Hok.
  exists (backoff_trace generate_content prompt k m initial_delay).
  split; [|split].
  - unfold make_gemini_call_with_retry.
    replace (Z.to_nat max_retries) with (k + S (Z.to_nat max_retries - S k))%nat by lia.
    rewrite (retry_loop_backoff service generate_content prompt max_retries _ k);
      [|lia|exact Hd|exact Hall].
    cbn [retry_loop]. simpl Z.add.
    destruct (Z.ltb_spec (Z.of_nat k) max_retries) as [_|Hge]; [|lia].
    unfold call_service. cbn [model_instance trace start].
    unfold nth_outcome in Hok. rewrite state_after_succ.
    destruct (generate_content (state_after generate_content prompt k m) prompt)
      as [o m'] eqn:Eg.
    simpl in Hok. subst o. simpl.
    now destruct (truthy text).
  - apply attempts_of_backoff_trace.
  - apply sleeps_of_backoff_trace.
Qed.

Lemma first_response_decides_witness :
  exists tr,
    make_gemini_call_with_retry (flaky_then 3 (Response "")) "Summarize." 7 1
      (start 0%nat)
    = Some (Returns "AI response was empty or blocked, possibly due to safety settings.",
            {| model_instance := 4%nat;
               trace := tr ++ [Generate "Summarize." (Response "")] |})
    /\ attempts_of tr = 3%nat
    /\ sleeps_of tr = [1; 2; 4].
Proof.
  apply (first_response_decides nat (flaky_then 3 (Response "")) "Summarize." 7 1
           0%nat 3%nat "").
  - reflexivity.
  - reflexivity.
  - intros i Hi. do 3 (destruct i as [|i]; [reflexivity|]). lia.
  - reflexivity.
Defined.

(** X4. An initial delay that [time.sleep] refuses makes the first backoff
    sleep fail: when the first attempt is refused for quota and a retry is
    left, the error of [time.sleep] leaves the client after that one
    attempt.  It is the [OverflowError] when the delay is beyond the range
    of the clock, in either direction, and the [ValueError] when it is
    negative and within that range. *)
Theorem refused_delay_raises (service : Type)
    (generate_content : service -> string -> outcome * service)
    (prompt : string) (max_retries : Z) (initial_delay : Q)
    (m m1 : service) (e : string) :
  (1 < max_retries)%Z ->
  refused initial_delay = true ->
  generate_content m prompt = (Throws (ResourceExhausted e), m1) ->
  make_gemini_call_with_retry generate_content prompt max_retries
    initial_delay (start m)
  = Some (Raises (if beyond_clock initial_delay
                  then OverflowError
                  else ValueError "sleep length must be non-negative"),
          {| model_instance := m1;
             trace := [Generate prompt (Throws (ResourceExhausted e))] |}).
Proof.
  intros Hmax Hd Hg. unfold make_gemini_call_with_retry.
  destruct (Z.to_nat max_retries) as [|fuel] eqn:E; [lia|].
  cbn [retry_loop].
  destruct (Z.ltb_spec 0 max_retries) as [_|Hge]; [|lia].
  unfold call_service. cbn [model_instance trace start]. rewrite Hg.
  destruct (Z.ltb_spec (0 + 1) max_retries) as [_|Hge]; [|lia].
  now rewrite (time_sleep_refused initial_delay _ Hd).
Qed.

Lemma refused_delay_raises_witness :
  make_gemini_call_with_retry Stub.always_limited "Summarize." 7 (-1 # 2)
    (start 0%nat)
  = Some (Raises (ValueError "sleep length must be non-negative"),
          {| model_instance := 1%nat;
             trace := [Generate "Summarize." Stub.quota] |})
  /\ make_gemini_call_with_retry Stub.always_limited "Summarize." 7
       (inject_Z (- 10 ^ 10)) (start 0%nat)
     = Some (Raises OverflowError,
             {| model_instance := 1%nat;
                trace := [Generate "Summarize." Stub.quota] |}).
Proof.
  split.
  - apply (refused_delay_raises nat Stub.always_limited "Summarize." 7 (-1 # 2)
             0%nat 1%nat "429 quota exceeded");
      [reflexivity | reflexivity | reflexivity].
  - apply (refused_delay_raises nat Stub.always_limited "Summarize." 7
             (inject_Z (- 10 ^ 10)) 0%nat 1%nat "429 quota exceeded");
      [reflexivity | reflexivity | reflexivity].
Defined.

End ClientRuns.

(** ** The choice of the model *)

Module ModelChoiceFacts.
Import Py ModelChoice.

Lemma mem_In (x : string) (l : list string) : mem x l = true <-> In x l.
Proof.
  unfold mem. rewrite existsb_exists. split.
  - intros (y & Hy & E). apply String.eqb_eq in E. now subst.
  - intros H. exists x. split; [exact H|apply String.eqb_refl].
Qed.

Lemma collect_In (models : list Model) (acc : list string) (n : string) :
  In n (collect models acc)
  <-> In n acc
      \/ exists m, In m models /\ name m = n
                   /\ In "generateContent"%string (supported_generation_methods m).
Proof.
  revert acc. induction models as [|m rest IH]; intros acc; simpl.
  - split; [now left|]. intros [H|(m & Hf & _)]; [exact H|destruct Hf].
  - destruct (mem "generateContent" (supported_generation_methods m)) eqn:E.
    + rewrite IH, in_app_iff. simpl. apply mem_In in E. split.
      * intros [[H|[H|[]]]|(m' & Hin & Hn & Hs)].
        -- now left.
        -- right. exists m. auto.
        -- right. exists m'. auto.
      * intros [H|(m' & [->|Hin] & Hn & Hs)].
        -- left. now left.
        -- left. right. now left.
        -- right. exists m'. auto.
    + rewrite IH. split.
      * intros [H|(m' & Hin & Hn & Hs)]; [now left|].
        right. exists m'. auto.
      * intros [H|(m' & [->|Hin] & Hn & Hs)]; [now left| |].
        -- apply mem_In in Hs. congruence.
        -- right. exists m'. auto.
Qed.

Lemma first_preferred_spec (preferred available : list string) :
  match first_preferred preferred available with
  | Some p =>
      exists before after,
        preferred = before ++ p :: after
        /\ In ("models/" ++ p)%string available
        /\ Forall (fun q => ~ In ("models/" ++ q)%string available) before
  | None => Forall (fun q => ~ In ("models/" ++ q)%string available) preferred
  end.
Proof.
  induction preferred as [|p rest IH]; cbn [first_preferred]; [constructor|].
  destruct (mem ("models/" ++ p) available) eqn:E.
  - exists [], rest. split; [reflexivity|]. split; [now apply mem_In|constructor].
  - assert (Hp : ~ In ("models/" ++ p)%string available).
    { intros H. apply mem_In in H. congruence. }
    destruct (first_preferred rest available) as [q|].
    + destruct IH as (before & after & -> & Hin & Hall).
      exists (p :: before), after. split; [reflexivity|].
      split; [exact Hin|now constructor].
    + now constructor.
Qed.

(** X5. [get_supported_model] always returns a model name.  When the
    listing succeeds and some preferred model is offered for
    [generateContent], the result is the first such model in the order of
    preference; in every other case (the listing fails, or no preferred
    model is offered, whether or not the fallback is) the result is the
    fallback model. *)
Theorem get_supported_model_choice (list_models : option (list Model))
    (preferred_models : list string) (fallback_model : string) :
  match list_models with
  | None =>
      get_supported_model list_models preferred_models fallback_model = fallback_model
  | Some models =>
      (exists before after,
          preferred_models
            = before ++ get_supported_model list_models preferred_models fallback_model
                     :: after
          /\ offers models (get_supported_model list_models preferred_models fallback_model)
          /\ Forall (fun q => ~ offers models q) before)
      \/ (get_supported_model list_models preferred_models fallback_model = fallback_model
          /\ Forall (fun q => ~ offers models q) preferred_models)
  end.
Proof.
  destruct list_models as [models|]; [|reflexivity].
  unfold get_supported_model, try_listing.
  pose proof (first_preferred_spec preferred_models (collect models [])) as H.
  assert (Hoff : forall q, In ("models/" ++ q)%string (collect models []) <-> offers models q).
  { intros q. rewrite collect_In. unfold offers. split.
    - intros [[]|H']. exact H'.
    - intros H'. now right. }
  destruct (first_preferred preferred_models (collect models [])) as [p|].
  - left. destruct H as (before & after & -> & Hin & Hall).
    exists before, after. split; [reflexivity|]. split; [now apply Hoff|].
    eapply Forall_impl; [|exact Hall]. intros q Hq Ho. apply Hq. now apply Hoff.
  - right. split.
    + now destruct (mem _ _).
    + eapply Forall_impl; [|exact H]. intros q Hq Ho. apply Hq. now apply Hoff.
Qed.

End ModelChoiceFacts.

(** ** The bulleted response format *)

Module BulletFacts.
Import Py PyFacts Client Analysis BulletFormat.
Local Open Scope string_scope.

Lemma prefix_nil (s : string) : prefix "" s = true.
Proof. now destruct s. Qed.

Lemma contains_cons (sep : string) (c : ascii) (s : string) :
  contains sep (String c s) = false ->
  prefix sep (String c s) = false /\ contains sep s = false.
Proof. cbn [contains]. intros H. now apply orb_false_elim in H. Qed.

(** A text without the separator is one piece. *)
Lemma split_without_sep (sep s : string) :
  contains sep s = false -> split sep s = [s].
Proof.
  unfold split. induction s as [|c r IH]; intros H; [reflexivity|].
  apply contains_cons in H. destruct H as [Hp Hr].
  cbn [split_from]. rewrite Hp, (IH Hr). reflexivity.
Qed.

(** A dash that opens the delimiter is followed by a space. *)
Lemma prefix_dash_inv (s : string) :
  prefix "- " s = true -> exists r, s = "- " ++ r.
Proof. intros H. eexists. exact (prefix_drop _ _ H). Qed.

Lemma prefix_dash_app (a t : string) (c : ascii) :
  prefix "- " (String c a) = false ->
  (forall r, t <> String " " r) ->
  prefix "- " (String c a ++ t) = false.
Proof.
  intros Hp Ht.
  destruct (prefix "- " (String c a ++ t)) eqn:E; [|reflexivity].
  apply prefix_dash_inv in E. destruct E as (r & E).
  simpl in E. injection E as -> E.
  destruct a as [|c2 a].
  - simpl in E. now apply Ht in E.
  - simpl in E. injection E as -> _.
    simpl in Hp. now rewrite prefix_nil in Hp.
Qed.

Lemma contains_app_tail (a t : string) :
  contains "- " a = false ->
  contains "- " t = false ->
  (forall r, t <> String " " r) ->
  contains "- " (a ++ t) = false.
Proof.
  intros Ha Ht Hsp. induction a as [|c a IH]; [exact Ht|].
  apply contains_cons in Ha. destruct Ha as [Hp Ha].
  change (String c a ++ t) with (String c (a ++ t)). cbn [contains].
  rewrite (IH Ha), orb_false_r.
  exact (prefix_dash_app a t c Hp Hsp).
Qed.

Lemma split_dash_head (b : string) :
  split "- " ("- " ++ b) = "" :: split "- " b.
Proof.
  unfold split. change ("- " ++ b) with (String "-" (String " " b)).
  cbn [split_from].
  replace (prefix "- " (String "-" (String " " b))) with true
    by (simpl; now rewrite prefix_nil).
  reflexivity.
Qed.

(** The pieces of a text that goes on after a delimiter. *)
Lemma split_dash_app (a b : string) :
  contains "- " a = false ->
  split "- " (a ++ "- " ++ b) = a :: split "- " b.
Proof.
  induction a as [|c a IH]; intros Ha; [apply split_dash_head|].
  unfold split in *.
  apply contains_cons in Ha. destruct Ha as [Hp Ha].
  change (String c a ++ "- " ++ b) with (String c (a ++ "- " ++ b)).
  cbn [split_from].
  assert (Hq : prefix "- " (String c (a ++ "- " ++ b)) = false).
  { apply (prefix_dash_app a ("- " ++ b) c Hp).
    intros r. simpl. discriminate. }
  rewrite Hq, (IH Ha). reflexivity.
Qed.

Lemma string_app_assoc (a b c : string) : (a ++ b) ++ c = a ++ b ++ c.
Proof. induction a as [|x a IH]; simpl; [reflexivity|now rewrite IH]. Qed.

Lemma bulleted_body (item : string) (rest : list string) :
  bulleted (item :: rest) = "- " ++ body (item :: rest).
Proof.
  revert item. induction rest as [|item2 rest IH]; intros item; [reflexivity|].
  specialize (IH item2).
  unfold bulleted in *. cbn [map] in *. rewrite join_cons2, IH. cbn [body].
  now rewrite !string_app_assoc.
Qed.

Lemma clean_terminated (item : string) :
  clean_item item -> contains "- " (item ++ newline) = false.
Proof.
  intros (_ & _ & H). apply contains_app_tail; [exact H|reflexivity|].
  intros r. discriminate.
Qed.

Lemma split_body (items : list string) :
  Forall clean_item items -> split "- " (body items) = terminated items.
Proof.
  induction 1 as [|item rest Hitem Hrest IH]; [reflexivity|].
  destruct rest as [|item2 rest].
  - apply split_without_sep. apply Hitem.
  - change (body (item :: item2 :: rest))
      with (item ++ newline ++ "- " ++ body (item2 :: rest)).
    change (terminated (item :: item2 :: rest))
      with ((item ++ newline) :: terminated (item2 :: rest)).
    rewrite <- string_app_assoc.
    rewrite split_dash_app by now apply clean_terminated.
    now rewrite IH.
Qed.

Lemma rstrip_app_newline (s : string) : rstrip (s ++ newline) = rstrip s.
Proof.
  induction s as [|c s IH]; [reflexivity|].
  change (String c s ++ newline) with (String c (s ++ newline)).
  cbn [rstrip]. now rewrite IH.
Qed.

Lemma clean_starts_clean (item : string) : strip item = item -> starts_clean item.
Proof.
  intros H. rewrite <- H. apply rstrip_starts_clean, lstrip_starts_clean.
Qed.

Lemma strip_terminated (item : string) :
  clean_item item -> strip (item ++ newline) = item.
Proof.
  intros (Hne & Hs & _). pose proof (clean_starts_clean item Hs) as Hc.
  unfold strip in *. rewrite (lstrip_clean item Hc) in Hs.
  rewrite lstrip_clean.
  - now rewrite rstrip_app_newline.
  - destruct item; [congruence|exact Hc].
Qed.

Lemma bullet_items_terminated (items : list string) :
  Forall clean_item items ->
  map strip (filter (fun item => truthy (strip item)) (terminated items)) = items.
Proof.
  induction 1 as [|item rest Hitem Hrest IH]; [reflexivity|].
  assert (Hne : truthy item = true) by (apply truthy_true, Hitem).
  destruct rest as [|item2 rest].
  - cbn [terminated filter map]. destruct Hitem as (_ & Hs & _).
    rewrite Hs, Hne. cbn [map]. now rewrite Hs.
  - change (terminated (item :: item2 :: rest))
      with ((item ++ newline) :: terminated (item2 :: rest)).
    cbn [filter]. rewrite (strip_terminated item Hitem), Hne.
    cbn [map]. rewrite (strip_terminated item Hitem). f_equal. exact IH.
Qed.

(** Parsing the requested format gives the items back. *)
Lemma bullet_items_bulleted (items : list string) :
  Forall clean_item items -> bullet_items (bulleted items) = items.
Proof.
  intros H. destruct items as [|item rest]; [reflexivity|].
  unfold bullet_items. rewrite bulleted_body, split_dash_head, split_body by exact H.
  cbn [filter]. replace (truthy (strip "")) with false by reflexivity.
  now apply bullet_items_terminated.
Qed.

(** X6. A response in the format the prompts ask for, one item per line
    after a dash and a space, is parsed back into its items by both
    functions, when the items are not empty, are trimmed and hold no
    bullet delimiter, and the response does not hold the marker phrase. *)
Theorem bulleted_round_trip (service : Type)
    (generate_content : service -> string -> outcome * service)
    (full_transcript_text : string) (w : world service) (items : list string) :
  Forall clean_item items ->
  bullet_items (bulleted items) = items
  /\ (forall w',
        call service generate_content (action_items_prompt full_transcript_text) w
          = Some (Returns (bulleted items), w') ->
        contains "No action items identified" (bulleted items) = false ->
        extract_action_items service generate_content full_transcript_text w
        = Some (Returns items, w'))
  /\ (forall w',
        call service generate_content (key_decisions_prompt full_transcript_text) w
          = Some (Returns (bulleted items), w') ->
        contains "No key decisions identified" (bulleted items) = false ->
        highlight_key_decisions service generate_content full_transcript_text w
        = Some (Returns items, w')).
Proof.
  intros H. pose proof (bullet_items_bulleted items H) as Hrt.
  split; [exact Hrt|split]; intros w' Hcall Hmark.
  - unfold extract_action_items. rewrite Hcall. unfold no_action_items.
    now rewrite Hmark, Hrt.
  - unfold highlight_key_decisions. rewrite Hcall. unfold no_key_decisions.
    now rewrite Hmark, Hrt.
Qed.

Lemma bulleted_round_trip_witness :
  exists w',
    extract_action_items nat
      (Stub.answers (bulleted ["Alice to send report by Friday"; "Bob: review deck"]))
      "alice will send the report" (start 0%nat)
    = Some (Returns ["Alice to send report by Friday"; "Bob: review deck"], w').
Proof.
  eexists.
  apply (proj1 (proj2 (bulleted_round_trip nat
           (Stub.answers (bulleted ["Alice to send report by Friday"; "Bob: review deck"]))
           "alice will send the report" (start 0%nat)
           ["Alice to send report by Friday"; "Bob: review deck"]
           ltac:(repeat constructor; discriminate)))).
  - vm_compute. reflexivity.
  - vm_compute. reflexivity.
Defined.

Lemma contains_lstrip (sep s : string) :
  contains sep s = false -> contains sep (lstrip s) = false.
Proof.
  induction s as [|c r IH]; intros H; [exact H|].
  cbn [lstrip]. destruct (isspace c); [|exact H].
  apply contains_cons in H. now apply IH.
Qed.

Lemma rstrip_is_prefix (s : string) : exists t, s = rstrip s ++ t.
Proof.
  induction s as [|c r (t & IH)]; [now exists ""|].
  cbn [rstrip]. destruct (rstrip r) as [|d r'].
  - destruct (isspace c); [now exists (String c r)|].
    exists t. simpl in *. now rewrite <- IH.
  - exists t. simpl in *. now rewrite <- IH.
Qed.

Lemma contains_app_false (sep a t : string) :
  contains sep (a ++ t) = false -> contains sep a = false.
Proof.
  induction a as [|c a IH]; intros H.
  - destruct (contains sep "") eqn:E; [|reflexivity].
    cbn [contains] in E. rewrite orb_false_r in E.
    pose proof (prefix_app sep "" t E) as P. change ("" ++ t) with t in *.
    destruct t; cbn [contains] in H; rewrite P in H; discriminate H.
  - change (String c a ++ t) with (String c (a ++ t)) in H.
    apply contains_cons in H. destruct H as [Hp Ha].
    cbn [contains]. rewrite (IH Ha), orb_false_r.
    destruct (prefix sep (String c a)) eqn:E; [|reflexivity].
    change (String c (a ++ t)) with (String c a ++ t) in Hp.
    now rewrite (prefix_app _ _ t E) in Hp.
Qed.

Lemma contains_strip (sep s : string) :
  contains sep s = false -> contains sep (strip s) = false.
Proof.
  intros H. unfold strip. apply contains_lstrip in H.
  destruct (rstrip_is_prefix (lstrip s)) as (t & E).
  rewrite E in H. now apply contains_app_false in H.
Qed.

Lemma bullet_items_clean (raw_response : string) :
  Forall clean_item (bullet_items raw_response).
Proof.
  unfold bullet_items. apply Forall_forall. intros item Hin.
  apply in_map_iff in Hin. destruct Hin as (frag & <- & Hin).
  apply filter_In in Hin. destruct Hin as [Hin Ht].
  split; [now apply truthy_true|]. split; [apply strip_idem|].
  apply contains_strip.
  pose proof (split_no_sep "- " raw_response ltac:(discriminate)) as Hall.
  rewrite Forall_forall in Hall. now apply Hall.
Qed.

(** X7. Every item that [extract_action_items] or
    [highlight_key_decisions] returns is not empty, is trimmed and holds
    no bullet delimiter; so writing the returned items in the bulleted
    format and parsing that again changes nothing. *)
Theorem returned_items_clean (service : Type)
    (generate_content : service -> string -> outcome * service)
    (full_transcript_text : string) (w w' : world service) (items : list string) :
  extract_action_items service generate_content full_transcript_text w
    = Some (Returns items, w')
  \/ highlight_key_decisions service generate_content full_transcript_text w
    = Some (Returns items, w') ->
  Forall clean_item items /\ bullet_items (bulleted items) = items.
Proof.
  intros H.
  assert (Hc : Forall clean_item items).
  { destruct H as [H|H];
      [unfold extract_action_items in H|unfold highlight_key_decisions in H];
      destruct (call _ _ _ _) as [[[raw|x] w1]|]; try discriminate H;
      destruct (contains _ raw); injection H as <- _;
      (constructor || apply bullet_items_clean). }
  split; [exact Hc|now apply bullet_items_bulleted].
Qed.

Lemma returned_items_clean_witness :
  Forall clean_item ["state"; "of"; "the art"]
  /\ bullet_items (bulleted ["state"; "of"; "the art"]) = ["state"; "of"; "the art"].
Proof.
  apply (returned_items_clean nat (Stub.answers " state- of- - the art ")
           "alice will send the report" (start 0%nat)
           {| model_instance := 1%nat;
              trace := [Generate (action_items_prompt "alice will send the report")
                          (Response " state- of- - the art ")] |}
           ["state"; "of"; "the art"]).
  left. vm_compute. reflexivity.
Defined.

(** X8. A first answer whose text is empty does not give an empty list:
    both functions return the one-item list that holds the client's fixed
    message, after a single call of the service. *)
Theorem empty_answer_becomes_item (service : Type)
    (generate_content : service -> string -> outcome * service)
    (full_transcript_text : string) (w : world service) (m1 m2 : service) :
  generate_content (model_instance w) (action_items_prompt full_transcript_text)
    = (Response "", m1) ->
  generate_content (model_instance w) (key_decisions_prompt full_transcript_text)
    = (Response "", m2) ->
  extract_action_items service generate_content full_transcript_text w
    = Some (Returns ["AI response was empty or blocked, possibly due to safety settings."],
            {| model_instance := m1;
               trace := (trace w
                         ++ [Generate (action_items_prompt full_transcript_text)
                               (Response "")])%list |})
  /\ highlight_key_decisions service generate_content full_transcript_text w
    = Some (Returns ["AI response was empty or blocked, possibly due to safety settings."],
            {| model_instance := m2;
               trace := (trace w
                         ++ [Generate (key_decisions_prompt full_transcript_text)
                               (Response "")])%list |}).
Proof.
  intros Ha Hd.
  unfold extract_action_items, highlight_key_decisions, call,
    make_gemini_call_with_retry, default_max_retries.
  change (Z.to_nat 7) with 7%nat. cbn [retry_loop].
  change (0 <? 7)%Z with true. cbv iota. unfold call_service.
  rewrite Ha, Hd. split; reflexivity.
Qed.

Lemma empty_answer_becomes_item_witness :
  extract_action_items nat (Stub.answers "") "alice will send the report" (start 0%nat)
  = Some (Returns ["AI response was empty or blocked, possibly due to safety settings."],
          {| model_instance := 1%nat;
             trace := [Generate (action_items_prompt "alice will send the report")
                         (Response "")] |}).
Proof.
  apply (proj1 (empty_answer_becomes_item nat (Stub.answers "")
                  "alice will send the report" (start 0%nat) 1%nat 1%nat
                  eq_refl eq_refl)).
Defined.

End BulletFacts.

(** ** The normalizer: its output and the URL step *)

Module NormalizerMore.
Import Py PyFacts Normalizer NormalizerFacts.
Local Open Scope string_scope.

Lemma contains_cons_inv (sep : string) (c : ascii) (s : string) :
  contains sep (String c s) = false ->
  prefix sep (String c s) = false /\ contains sep s = false.
Proof. cbn [contains]. intros H. now apply orb_false_elim in H. Qed.

Lemma sub_urls_skip (s : string) :
  forall k, (k <= length s)%nat -> sub_urls k s = sub_urls 0 (drop k s).
Proof.
  induction s as [|c r IH]; intros [|k] Hk; try reflexivity.
  simpl in Hk. cbn [sub_urls drop]. apply IH. lia.
Qed.

Lemma span_len_token (u rest : string) :
  forallb_chars nonspace u = true ->
  Tokens.ends_token rest ->
  span_len nonspace (u ++ rest) = length u.
Proof.
  intros Hu Hrest. induction u as [|c u IH].
  - destruct rest as [|c rest]; [reflexivity|].
    simpl in *. unfold nonspace. now rewrite Hrest.
  - simpl in Hu. apply andb_prop in Hu. destruct Hu as [Hc Hu].
    simpl. rewrite Hc. now rewrite (IH Hu).
Qed.

Lemma drop_app (a b : string) : drop (length a) (a ++ b) = b.
Proof. induction a as [|c a IH]; [now destruct b|exact IH]. Qed.

Lemma length_app (a b : string) : length (a ++ b) = (length a + length b)%nat.
Proof. induction a as [|c a IH]; simpl; [reflexivity|now rewrite IH]. Qed.

Lemma prefix_app_self (a b : string) : prefix a (a ++ b) = true.
Proof.
  induction a as [|c a IH]; [now destruct b|].
  simpl. destruct (ascii_dec c c); [exact IH|congruence].
Qed.

(** X9. The normalizer returns a trimmed text whatever its argument and
    flag, and without lemmatization a text of word characters and
    whitespace only: no punctuation is left. *)
Theorem preprocess_text_output (L : TextLibs) (text : value) (b : bool) :
  strip (preprocess_text text b) = preprocess_text text b
  /\ forallb_chars (fun c => isword c || isspace c) (preprocess_text text false) = true.
Proof.
  split.
  - destruct text; try reflexivity. simpl. apply strip_idem.
  - destruct text; try reflexivity. apply preprocess_text_chars.
Qed.

(** X10. [remove_urls] leaves a text unchanged when neither [http] nor
    [www] occurs in it. *)
Theorem remove_urls_without_urls (s : string) :
  contains "http" s = false -> contains "www" s = false ->
  @remove_urls s = s.
Proof.
  unfold remove_urls. induction s as [|c r IH]; intros Hh Hw; [reflexivity|].
  apply contains_cons_inv in Hh. destruct Hh as [Hhp Hh].
  apply contains_cons_inv in Hw. destruct Hw as [Hwp Hw].
  cbn [sub_urls]. unfold match_url, match_http, match_www.
  rewrite Hhp, Hwp. f_equal. now apply IH.
Qed.

Lemma remove_urls_without_urls_witness :
  @remove_urls "budget approved, see htt p" = "budget approved, see htt p".
Proof.
  apply (remove_urls_without_urls "budget approved, see htt p"); reflexivity.
Defined.

(** X11. [remove_urls] deletes a whole URL token: [http] followed by at
    least one character up to the next whitespace, and [www], one
    character that is no newline, and at least one character up to the
    next whitespace.  The text after the token is treated as if the token
    had not been there. *)
Theorem remove_urls_token (u rest : string) (c : ascii) :
  u <> "" ->
  forallb_chars nonspace u = true ->
  Tokens.ends_token rest ->
  code c <> 10%nat ->
  @remove_urls ("http" ++ u ++ rest) = @remove_urls rest
  /\ @remove_urls ("www" ++ String c u ++ rest) = @remove_urls rest.
Proof.
  intros Hne Hu Hrest Hc.
  pose proof (span_len_token u rest Hu Hrest) as Hspan.
  destruct u as [|x u]; [congruence|]. clear Hne.
  unfold remove_urls. split.
  - change ("http" ++ String x u ++ rest)
      with (String "h" ("ttp" ++ String x u ++ rest)).
    cbn [sub_urls].
    assert (Hm : match_url (String "h" ("ttp" ++ String x u ++ rest))
                 = Some (S (3 + length (String x u)))).
    { unfold match_url, match_http.
      change (String "h" ("ttp" ++ String x u ++ rest))
        with ("http" ++ (String x u ++ rest)).
      rewrite prefix_app_self.
      change 4%nat with (length "http") at 1. rewrite drop_app, Hspan.
      reflexivity. }
    rewrite Hm. rewrite sub_urls_skip.
    + change (3 + length (String x u))%nat with (length ("ttp" ++ String x u)).
      change ("ttp" ++ String x u ++ rest)
        with (("ttp" ++ String x u) ++ rest) at 1.
      now rewrite drop_app.
    + rewrite !length_app. simpl. lia.
  - change ("www" ++ String c (String x u) ++ rest)
      with (String "w" ("ww" ++ String c (String x u ++ rest))).
    cbn [sub_urls].
    assert (Hm : match_url (String "w" ("ww" ++ String c (String x u ++ rest)))
                 = Some (S (3 + length (String x u)))).
    { unfold match_url, match_http, match_www.
      change (String "w" ("ww" ++ String c (String x u ++ rest)))
        with ("www" ++ String c (String x u ++ rest)).
      replace (prefix "http" ("www" ++ String c (String x u ++ rest))) with false
        by reflexivity.
      rewrite prefix_app_self.
      change 3%nat with (length "www") at 1. rewrite drop_app.
      destruct (Nat.eqb_spec (code c) 10) as [E|_]; [contradiction|].
      rewrite Hspan. reflexivity. }
    rewrite Hm. rewrite sub_urls_skip.
    + change (3 + length (String x u))%nat with (length ("ww" ++ String c (String x u))).
      change ("ww" ++ String c (String x u ++ rest))
        with (("ww" ++ String c (String x u)) ++ rest) at 1.
      now rewrite drop_app.
    + simpl. rewrite length_app. simpl. lia.
Qed.

Lemma remove_urls_token_witness :
  @remove_urls "http://example.com/a?b=1 now" = " now"
  /\ @remove_urls "www.example.com now" = " now".
Proof.
  destruct (remove_urls_token "://example.com/a?b=1" " now" ".")
    as [Hhttp _]; [discriminate | reflexivity | reflexivity | discriminate |].
  destruct (remove_urls_token "example.com" " now" ".")
    as [_ Hwww]; [discriminate | reflexivity | reflexivity | discriminate |].
  split; [exact Hhttp | exact Hwww].
Defined.

End NormalizerMore.

(** ** The format parsers: lines, blocks and concatenation *)

Module ParserMore.
Import Py PyFacts Normalizer Parser.

Local Arguments preprocess_text : simpl never.

Lemma code_newline (c : ascii) :
  (code c =? 10)%nat = true -> c = ascii_of_nat 10.
Proof.
  intros H. apply Nat.eqb_eq in H. unfold code in H.
  rewrite <- (ascii_nat_embedding c), H. reflexivity.
Qed.

Lemma prefix_newline (c : ascii) (r : string) :
  prefix newline (String c r) = (code c =? 10)%nat.
Proof.
  unfold newline. cbn [prefix].
  destruct (ascii_dec (ascii_of_nat 10) c) as [<-|Hne].
  - now destruct r.
  - destruct (code c =? 10)%nat eqn:E; [|reflexivity].
    apply code_newline in E. congruence.
Qed.

Lemma split_newline_cons (c : ascii) (r : string) :
  split newline (String c r)
  = if (code c =? 10)%nat then EmptyString :: split newline r
    else match split newline r with
         | p :: ps => String c p :: ps
         | [] => [String c EmptyString]
         end.
Proof.
  unfold split. cbn [split_from]. rewrite prefix_newline.
  now destruct (code c =? 10)%nat.
Qed.

(** The lines a file object yields, against the pieces between the
    newlines. *)
Lemma readlines_split (s : string) :
  exists ls last,
    split newline s = ls ++ [last]
    /\ readlines s
       = map (fun l => (l ++ newline)%string) ls ++ (if truthy last then [last] else []).
Proof.
  induction s as [|c r (ls & last & Hs & Hr)].
  - exists [], EmptyString. split; reflexivity.
  - rewrite split_newline_cons. cbn [readlines].
    destruct (code c =? 10)%nat eqn:E.
    + exists (EmptyString :: ls), last. rewrite Hs, Hr.
      apply code_newline in E. subst c. split; reflexivity.
    + rewrite Hs, Hr. destruct ls as [|l ls].
      * exists [], (String c last). split; [reflexivity|].
        simpl. now destruct last.
      * exists (String c l :: ls), last. split; reflexivity.
Qed.

Lemma strip_app_newline (s : string) : strip (s ++ newline) = strip s.
Proof.
  unfold strip. induction s as [|c s IH]; [reflexivity|].
  change ((String c s ++ newline)%string) with (String c (s ++ newline)).
  cbn [lstrip]. destruct (isspace c); [exact IH|].
  apply (BulletFacts.rstrip_app_newline (String c s)).
Qed.

Lemma split_newline_app (a b : string) :
  split newline (a ++ newline ++ b) = split newline a ++ split newline b.
Proof.
  induction a as [|c a IH].
  - change (("" ++ newline ++ b)%string) with (String (ascii_of_nat 10) b).
    now rewrite split_newline_cons.
  - change ((String c a ++ newline ++ b)%string) with (String c (a ++ newline ++ b)).
    rewrite !split_newline_cons, IH.
    destruct (code c =? 10)%nat; [reflexivity|].
    destruct (split_from_cons newline 0 a) as (p & ps & E).
    unfold split. now rewrite E.
Qed.

Section WithLibs.
Context {L : TextLibs}.

Lemma txt_loop_filter (b : bool) (lines acc : list string) :
  txt_loop lines b acc = acc ++ filter truthy (map (Lines.line_text b) lines).
Proof.
  revert acc. induction lines as [|line rest IH]; intros acc; simpl.
  - now rewrite app_nil_r.
  - unfold Lines.line_text at 1.
    destruct (truthy (preprocess_text (VStr (strip line)) b)) eqn:E;
      rewrite IH; [now rewrite <- app_assoc|reflexivity].
Qed.

Lemma line_text_newline (b : bool) (l : string) :
  Lines.line_text b (l ++ newline) = Lines.line_text b l.
Proof. unfold Lines.line_text. now rewrite strip_app_newline. Qed.

(** The plain-text parser reads the pieces between the newlines. *)
Lemma parse_txt_split (content : string) (b : bool) :
  preprocess_text (VStr "") b = "" ->
  parse_txt_transcript content b
  = filter truthy (map (Lines.line_text b) (split newline content)).
Proof.
  intros Hempty. unfold parse_txt_transcript. rewrite txt_loop_filter. simpl.
  destruct (readlines_split content) as (ls & last & Hs & Hr).
  rewrite Hs, Hr, !map_app, !filter_app, map_map.
  rewrite (map_ext _ (Lines.line_text b) (line_text_newline b)).
  f_equal. destruct last as [|c last]; [|reflexivity].
  simpl. unfold Lines.line_text. change (strip "") with "".
  now rewrite Hempty.
Qed.

Lemma line_text_utterance (b : bool) (lines : list string) :
  Forall Lines.utterance (filter truthy (map (Lines.line_text b) lines)).
Proof.
  apply Forall_forall. intros u Hin. apply filter_In in Hin.
  destruct Hin as [Hin Ht]. apply in_map_iff in Hin.
  destruct Hin as (line & <- & _).
  split; [now apply truthy_true|]. unfold Lines.line_text.
  unfold preprocess_text. apply strip_idem.
Qed.

Lemma flush_utterances (b : bool) (st : srt_state) :
  Forall Lines.utterance (utterances st) ->
  Forall Lines.utterance (flush b st).
Proof.
  intros H. unfold flush.
  destruct (truthy _) eqn:E; [|exact H].
  apply Forall_app. split; [exact H|]. constructor; [|constructor].
  split; [now apply truthy_true|]. unfold preprocess_text. apply strip_idem.
Qed.

Lemma srt_step_utterances (b : bool) (st : srt_state) (line : string) :
  Forall Lines.utterance (utterances st) ->
  Forall Lines.utterance (utterances (srt_step b st line)).
Proof.
  intros H. unfold srt_step.
  destruct (truthy (strip line)); simpl.
  - destruct (is_index (strip line)); [exact H|].
    destruct (is_timestamp (strip line)); exact H.
  - destruct (current_utterance_lines st) eqn:E; [exact H|].
    simpl. now apply flush_utterances.
Qed.

Lemma srt_loop_utterances (b : bool) (lines : list string) (st : srt_state) :
  Forall Lines.utterance (utterances st) ->
  Forall Lines.utterance (utterances (srt_loop lines b st)).
Proof.
  revert st. induction lines as [|line rest IH]; intros st H; [exact H|].
  simpl. apply IH. now apply srt_step_utterances.
Qed.

Lemma srt_step_skipped (b : bool) (st : srt_state) (line : string) :
  Lines.skipped line -> current_utterance_lines st = [] -> srt_step b st line = st.
Proof.
  intros Hs Hc. unfold srt_step.
  destruct (truthy (strip line)) eqn:Et; simpl.
  - destruct Hs as [Hs|[Hs|Hs]].
    + rewrite Hs in Et. discriminate.
    + now rewrite Hs.
    + rewrite Hs. now destruct (is_index (strip line)).
  - now rewrite Hc.
Qed.

Lemma srt_step_from (b : bool) (line : string) (us cur : list string) :
  srt_step b {| utterances := us; current_utterance_lines := cur |} line
  = {| utterances :=
         us ++ utterances (srt_step b
                             {| utterances := []; current_utterance_lines := cur |} line);
       current_utterance_lines :=
         current_utterance_lines
           (srt_step b {| utterances := []; current_utterance_lines := cur |} line) |}.
Proof.
  unfold srt_step. simpl.
  destruct (truthy (strip line)); simpl.
  - destruct (is_index (strip line)); simpl; [now rewrite app_nil_r|].
    destruct (is_timestamp (strip line)); simpl; now rewrite app_nil_r.
  - destruct cur as [|c cur]; simpl; [now rewrite app_nil_r|].
    unfold flush. simpl. destruct (truthy _); simpl; [reflexivity|now rewrite app_nil_r].
Qed.

(** The utterances found so far only grow, and the loop does not look at
    them. *)
Lemma srt_loop_from (b : bool) (lines : list string) (us cur : list string) :
  srt_loop lines b {| utterances := us; current_utterance_lines := cur |}
  = {| utterances :=
         us ++ utterances (srt_loop lines b
                             {| utterances := []; current_utterance_lines := cur |});
       current_utterance_lines :=
         current_utterance_lines
           (srt_loop lines b {| utterances := []; current_utterance_lines := cur |}) |}.
Proof.
  revert us cur. induction lines as [|line rest IH]; intros us cur.
  - simpl. now rewrite app_nil_r.
  - cbn [srt_loop]. rewrite srt_step_from.
    destruct (srt_step b {| utterances := []; current_utterance_lines := cur |} line)
      as [u1 c1].
    cbn [utterances current_utterance_lines].
    rewrite (IH (us ++ u1)), (IH u1). cbn [utterances current_utterance_lines].
    now rewrite <- app_assoc.
Qed.

Lemma final_flush_from (b : bool) (us us' cur : list string) :
  final_flush b {| utterances := us ++ us'; current_utterance_lines := cur |}
  = us ++ final_flush b {| utterances := us'; current_utterance_lines := cur |}.
Proof.
  unfold final_flush, flush. simpl. destruct cur; [reflexivity|].
  destruct (truthy _); [now rewrite <- app_assoc|reflexivity].
Qed.

End WithLibs.

(** X12. The plain-text parser returns, in order, the non-empty
    normalized texts of the pieces of the content between its newlines;
    every utterance it returns is non-empty and trimmed, and there are at
    most as many as there are pieces. *)
Theorem parse_txt_transcript_lines (L : TextLibs) (content : string) (b : bool) :
  preprocess_text (VStr "") b = "" ->
  parse_txt_transcript content b
    = filter truthy (map (Lines.line_text b) (split newline content))
  /\ Forall Lines.utterance (parse_txt_transcript content b)
  /\ (List.length (parse_txt_transcript content b)
      <= List.length (split newline content))%nat.
Proof.
  intros Hempty. rewrite (parse_txt_split content b Hempty).
  split; [reflexivity|]. split; [apply line_text_utterance|].
  rewrite <- (length_map (Lines.line_text b) (split newline content)).
  apply filter_length_le.
Qed.

Lemma parse_txt_transcript_lines_witness :
  @parse_txt_transcript Reference.libs
    ("Let's ship v2." ++ newline ++ "  " ++ newline ++ "Budget approved." ++ newline)
    false
  = ["lets ship v2"; "budget approved"].
Proof.
  rewrite (proj1 (parse_txt_transcript_lines Reference.libs
            ("Let's ship v2." ++ newline ++ "  " ++ newline ++ "Budget approved." ++ newline)
            false eq_refl)).
  vm_compute. reflexivity.
Defined.

(** X13. Concatenation of plain-text transcripts: the utterances of two
    contents put together with a newline between them are the utterances
    of the first followed by those of the second. *)
Theorem parse_txt_transcript_app (L : TextLibs) (a c : string) (b : bool) :
  preprocess_text (VStr "") b = "" ->
  parse_txt_transcript (a ++ newline ++ c) b
  = parse_txt_transcript a b ++ parse_txt_transcript c b.
Proof.
  intros Hempty. rewrite !(parse_txt_split _ b Hempty).
  now rewrite split_newline_app, map_app, filter_app.
Qed.

Lemma parse_txt_transcript_app_witness :
  @parse_txt_transcript Reference.libs
    (("Let's ship v2." ++ newline) ++ newline ++ "Budget approved.") true
  = ["lets ship v2"] ++ ["budget approved"].
Proof.
  rewrite (parse_txt_transcript_app Reference.libs
             ("Let's ship v2." ++ newline) "Budget approved." true eq_refl).
  vm_compute. reflexivity.
Defined.

(** X14. Concatenation of subtitle transcripts: the utterances of two
    contents put together with a blank line between them are the
    utterances of the first followed by those of the second. *)
Theorem parse_srt_transcript_app (L : TextLibs) (a c : string) (b : bool) :
  parse_srt_transcript (a ++ newline ++ newline ++ c) b
  = parse_srt_transcript a b ++ parse_srt_transcript c b.
Proof.
  unfold parse_srt_transcript.
  rewrite split_newline_app.
  change ((newline ++ c)%string) with (("" ++ newline ++ c)%string).
  rewrite split_newline_app. change (split newline "") with [""].
  unfold srt_lines. rewrite !SubtitleFacts.srt_loop_app.
  set (sa := srt_loop (split newline a) b _).
  assert (Hblank : srt_loop [""] b sa
                   = {| utterances := final_flush b sa; current_utterance_lines := [] |}).
  { simpl. unfold srt_step, final_flush. change (truthy (strip "")) with false.
    simpl. destruct sa as [us [|x cur]]; reflexivity. }
  rewrite Hblank, srt_loop_from, final_flush_from.
  now destruct (srt_loop (split newline c) b _) as [us' cur'].
Qed.

(** X15. The subtitle parser returns only utterances that are non-empty
    and trimmed, and it returns none when every line of the content is
    blank, an index or a timestamp. *)
Theorem parse_srt_transcript_utterances (L : TextLibs) (content : string) (b : bool) :
  Forall Lines.utterance (parse_srt_transcript content b)
  /\ (Forall Lines.skipped (split newline content) ->
      parse_srt_transcript content b = []).
Proof.
  unfold parse_srt_transcript, srt_lines. split.
  - set (st0 := {| utterances := []; current_utterance_lines := [] |}).
    pose proof (srt_loop_utterances b (split newline content) st0 (Forall_nil _)) as H.
    unfold final_flush.
    destruct (current_utterance_lines _); [exact H|now apply flush_utterances].
  - intros Hall.
    assert (H : srt_loop (split newline content) b
                  {| utterances := []; current_utterance_lines := [] |}
                = {| utterances := []; current_utterance_lines := [] |}).
    { induction Hall as [|line rest Hline _ IH]; [reflexivity|].
      simpl. now rewrite srt_step_skipped. }
    now rewrite H.
Qed.

Lemma parse_srt_transcript_utterances_witness :
  @parse_srt_transcript Reference.libs
    ("1" ++ newline ++ "00:00:00,000 --> 00:00:02,500" ++ newline ++ "  " ++ newline
     ++ "2" ++ newline) false
  = [].
Proof.
  apply (proj2 (parse_srt_transcript_utterances Reference.libs
                  ("1" ++ newline ++ "00:00:00,000 --> 00:00:02,500" ++ newline
                   ++ "  " ++ newline ++ "2" ++ newline) false)).
  change (split newline
            ("1" ++ newline ++ "00:00:00,000 --> 00:00:02,500" ++ newline
             ++ "  " ++ newline ++ "2" ++ newline))
    with ["1"%string; "00:00:00,000 --> 00:00:02,500"%string; "  "%string;
          "2"%string; ""%string].
  repeat constructor;
    first [ left; reflexivity | right; left; reflexivity | right; right; reflexivity ].
Defined.

End ParserMore.

(** ** The session handlers *)

Module AppFacts.
Import PyFacts Normalizer Parser Client ClientFacts Analysis App Py.
Local Open Scope string_scope.








(** X17. An upload that cannot be read, because its bytes do not decode or
    its extension is neither [txt] nor [srt], leaves the session without
    transcript, without results and without the file name, so that the
    same file is handled afresh when it comes again; the notice carries
    the error. *)
Theorem failed_upload_forgotten (L : TextLibs) (b : bool) (st : session)
    (up : uploaded_file) :
  other_name (last_uploaded_file_name st) (file_name up) = true ->
  (exists ve, decoded up = Raises (ValueError ve))
  \/ (extension (file_name up) <> "txt" /\ extension (file_name up) <> "srt") ->
  exists ve,
    handle_upload b up st
    = ({| theme := theme st;
          transcript_text := "";
          file_type := Some (extension (file_name up));
          meeting_summary := "";
          action_items := [];
          key_decisions := [];
          discussion_topics := [];
          analysis_completed := false;
          last_uploaded_file_name := None |},
       [ParsingError ve])
    /\ (match decoded up with
        | Raises (ValueError e) => ve = e
        | Returns _ =>
            ve = "Unsupported transcript file type: " ++ extension (file_name up)
                 ++ ". Only TXT and SRT are supported."
        end)
    /\ other_name (last_uploaded_file_name (fst (handle_upload b up st))) (file_name up)
       = true.
Proof.
  intros Hnew Hbad. unfold handle_upload. rewrite Hnew.
  destruct (decoded up) as [content|[ve]] eqn:Ed.
  - destruct Hbad as [(ve & Hve)|[Htxt Hsrt]]; [discriminate Hve|].
    unfold parse_transcript_data.
    destruct (String.eqb_spec (extension (file_name up)) "txt") as [E|_];
      [contradiction|].
    destruct (String.eqb_spec (extension (file_name up)) "srt") as [E|_];
      [contradiction|].
    eexists. split; [reflexivity|]. split; reflexivity.
  - exists ve. split; [reflexivity|]. split; reflexivity.
Qed.

Lemma failed_upload_forgotten_witness :
  exists ve,
    @handle_upload Reference.libs false
      {| file_name := "notes.csv"; decoded := Returns "a,b" |} initial_session
    = ({| theme := "dark";
          transcript_text := "";
          file_type := Some "csv";
          meeting_summary := "";
          action_items := [];
          key_decisions := [];
          discussion_topics := [];
          analysis_completed := false;
          last_uploaded_file_name := None |},
       [ParsingError ve])
    /\ ve = "Unsupported transcript file type: csv. Only TXT and SRT are supported.".
Proof.
  destruct (failed_upload_forgotten Reference.libs false initial_session
              {| file_name := "notes.csv"; decoded := Returns "a,b" |})
    as (ve & Hup & Hve & _).
  - reflexivity.
  - right. split; discriminate.
  - exists ve. split; [exact Hup|exact Hve].
Defined.

(** X18. Once an upload has been handled without error, a file of the
    same name is not read again, whatever it holds: the session, with its
    transcript, stays as it is. *)
Theorem same_name_not_read_again (L : TextLibs) (b1 b2 : bool) (st : session)
    (up1 up2 : uploaded_file) :
  (forall ve, snd (handle_upload b1 up1 st) <> [ParsingError ve]) ->
  file_name up2 = file_name up1 ->
  handle_upload b2 up2 (fst (handle_upload b1 up1 st))
  = (fst (handle_upload b1 up1 st), []).
Proof.
  intros Hok Hname.
  assert (Hlast : other_name
                    (last_uploaded_file_name (fst (handle_upload b1 up1 st)))
                    (file_name up1) = false).
  { unfold handle_upload in *.
    destruct (other_name (last_uploaded_file_name st) (file_name up1)) eqn:E;
      [|exact E].
    destruct (decoded up1) as [content|[ve]].
    - destruct (parse_transcript_data content _ b1) as [us|[ve]].
      + simpl. now rewrite String.eqb_refl.
      + exfalso. now apply (Hok ve).
    - exfalso. now apply (Hok ve). }
  unfold handle_upload at 1. now rewrite Hname, Hlast.
Qed.

Lemma same_name_not_read_again_witness :
  @handle_upload Reference.libs true
    {| file_name := "sync.txt"; decoded := Returns "Something else entirely." |}
    (fst (@handle_upload Reference.libs false
            {| file_name := "sync.txt"; decoded := Returns "Budget approved." |}
            initial_session))
  = (fst (@handle_upload Reference.libs false
            {| file_name := "sync.txt"; decoded := Returns "Budget approved." |}
            initial_session), []).
Proof.
  apply (same_name_not_read_again Reference.libs false true initial_session
           {| file_name := "sync.txt"; decoded := Returns "Budget approved." |}
           {| file_name := "sync.txt"; decoded := Returns "Something else entirely." |}).
  - intros ve. vm_compute. discriminate.
  - reflexivity.
Defined.

(** From here on [result] is that of the client. *)
Import Client.

Section WithService.
Variable service : Type.
Variable generate_content : service -> string -> outcome * service.

(** A call with the default retries and delay returns a string after one
    to seven attempts. *)
Lemma call_default (prompt : string) (w : world service) :
  exists s w' new,
    call service generate_content prompt w = Some (Returns s, w')
    /\ trace w' = (trace w ++ new)%list
    /\ (1 <= attempts_of new <= 7)%nat.
Proof.
  unfold call, make_gemini_call_with_retry.
  destruct (ClientRuns.retry_loop_returns service generate_content prompt
              default_max_retries (Z.to_nat default_max_retries) 0
              default_initial_delay w) as (s & w' & H);
    [rewrite Z.sub_0_r; apply le_n | reflexivity |].
  exists s, w'.
  assert (Hlt : (0 < default_max_retries)%Z) by reflexivity.
  destruct (ClientRuns.retry_loop_shape service generate_content prompt
              default_max_retries _ _ _ _ _ _ Hlt H)
    as (n & Hn & Htr & _).
  eexists. split; [exact H|]. split; [exact Htr|].
  rewrite attempts_of_app, attempts_of_backoff_trace.
  change (attempts_of [Generate prompt _]) with 1%nat.
  unfold default_max_retries in Hn. lia.
Qed.

Lemma extract_action_items_default (t : string) (w : world service) :
  exists items w' new,
    extract_action_items service generate_content t w = Some (Returns items, w')
    /\ trace w' = (trace w ++ new)%list
    /\ (1 <= attempts_of new <= 7)%nat.
Proof.
  destruct (call_default (action_items_prompt t) w) as (s & w' & new & H & Htr & Hn).
  unfold extract_action_items. rewrite H.
  destruct (contains no_action_items s); eexists; exists w', new; now split.
Qed.

Lemma highlight_key_decisions_default (t : string) (w : world service) :
  exists items w' new,
    highlight_key_decisions service generate_content t w = Some (Returns items, w')
    /\ trace w' = (trace w ++ new)%list
    /\ (1 <= attempts_of new <= 7)%nat.
Proof.
  destruct (call_default (key_decisions_prompt t) w) as (s & w' & new & H & Htr & Hn).
  unfold highlight_key_decisions. rewrite H.
  destruct (contains no_key_decisions s); eexists; exists w', new; now split.
Qed.

End WithService.

(** X19. Whatever the service does, a run of the analysis comes to its
    end without raising: the session is marked as analysed, it keeps its
    transcript and file name, the placeholder topics are set exactly when
    the summary is not empty, and the service has been called at least 3
    and at most 21 times. *)
Theorem run_analysis_completes (service : Type)
    (generate_content : service -> string -> outcome * service)
    (st : session) (w : world service) :
  exists st' w' new,
    run_analysis service generate_content st w = Some (Returns tt, st', w')
    /\ analysis_completed st' = true
    /\ transcript_text st' = transcript_text st
    /\ last_uploaded_file_name st' = last_uploaded_file_name st
    /\ discussion_topics st'
       = (if truthy (meeting_summary st') then placeholder_topics
          else discussion_topics st)
    /\ trace w' = (trace w ++ new)%list
    /\ (3 <= attempts_of new <= 21)%nat.
Proof.
  unfold run_analysis, get_meeting_summary.
  destruct (call_default service generate_content
              (summary_prompt (transcript_text st)) w)
    as (summary & w1 & n1 & H1 & T1 & A1).
  rewrite H1. cbn [transcript_text set_meeting_summary].
  destruct (extract_action_items_default service generate_content
              (transcript_text st) w1)
    as (items & w2 & n2 & H2 & T2 & A2).
  rewrite H2. cbn [transcript_text set_action_items set_meeting_summary].
  destruct (highlight_key_decisions_default service generate_content
              (transcript_text st) w2)
    as (decisions & w3 & n3 & H3 & T3 & A3).
  rewrite H3.
  eexists. exists w3, (n1 ++ n2 ++ n3)%list.
  split; [reflexivity|].
  cbn [meeting_summary set_key_decisions set_action_items set_meeting_summary].
  destruct (truthy summary) eqn:Es; cbn; rewrite ?Es;
    (repeat split; try reflexivity;
     [ now rewrite T3, T2, T1, <- !app_assoc
     | rewrite !attempts_of_app; lia
     | rewrite !attempts_of_app; lia ]).
Qed.

End AppFacts.

(** ** The chart of the discussion topics *)

Module ChartFacts.
Import Py Styling Visualization.

Lemma keys_bump (t : string) (counts : list (string * nat)) :
  keys (bump t counts)
  = keys counts ++ (if existsb (fun k => String.eqb k t) (keys counts) then [] else [t]).
Proof.
  induction counts as [|[k c] rest IH]; [reflexivity|].
  cbn [bump]. unfold keys in *. cbn [map fst existsb].
  destruct (String.eqb k t); simpl; [now rewrite app_nil_r|].
  now rewrite IH.
Qed.

Lemma existsb_eqb_In (t : string) (l : list string) :
  existsb (fun k => String.eqb k t) l = true <-> In t l.
Proof.
  rewrite existsb_exists. split.
  - intros (k & Hk & E). apply String.eqb_eq in E. now subst.
  - intros H. exists t. split; [exact H|apply String.eqb_refl].
Qed.

Lemma keys_bump_In (t k : string) (counts : list (string * nat)) :
  In k (keys (bump t counts)) <-> In k (keys counts) \/ k = t.
Proof.
  rewrite keys_bump, in_app_iff.
  destruct (existsb _ (keys counts)) eqn:E.
  - apply existsb_eqb_In in E. simpl. split.
    + intros [H|[]]. now left.
    + intros [H| ->]; now left.
  - simpl. split.
    + intros [H|[<-|[]]]; [now left|now right].
    + intros [H| ->]; [now left|right; now left].
Qed.

Lemma NoDup_keys_bump (t : string) (counts : list (string * nat)) :
  NoDup (keys counts) -> NoDup (keys (bump t counts)).
Proof.
  intros H. rewrite keys_bump.
  destruct (existsb _ (keys counts)) eqn:E; [now rewrite app_nil_r|].
  apply NoDup_app; [exact H|repeat constructor; auto|].
  intros k Hk [<-|[]].
  apply existsb_eqb_In in Hk. congruence.
Qed.

(** What an item of the bumped counter was before. *)
Lemma In_bump (t k : string) (c : nat) (counts : list (string * nat)) :
  NoDup (keys counts) ->
  In (k, c) (bump t counts) ->
  (k <> t /\ In (k, c) counts)
  \/ (k = t /\ exists c0, In (t, c0) counts /\ c = S c0)
  \/ (k = t /\ ~ In t (keys counts) /\ c = 1%nat).
Proof.
  induction counts as [|[k0 c0] rest IH]; intros Hnd Hin.
  - destruct Hin as [E|[]]. injection E as <- <-. right. right. auto.
  - cbn [bump] in Hin. inversion Hnd as [|? ? Hk0 Hrest]; subst.
    destruct (String.eqb_spec k0 t) as [->|Hne].
    + destruct Hin as [E|Hin].
      * injection E as <- <-. right. left. split; [reflexivity|].
        exists c0. split; [now left|reflexivity].
      * destruct (String.eqb_spec k t) as [->|Hkt].
        -- exfalso. apply Hk0. change (In t (keys rest)).
           unfold keys. apply in_map_iff. now exists (t, c).
        -- left. split; [exact Hkt|now right].
    + destruct Hin as [E|Hin].
      * injection E as <- <-. left. split; [exact Hne|now left].
      * destruct (IH Hrest Hin) as [[Hkt H]|[[-> (c1 & H & ->)]|[-> [Hnot ->]]]].
        -- left. split; [exact Hkt|now right].
        -- right. left. split; [reflexivity|]. exists c1. split; [now right|reflexivity].
        -- right. right. split; [reflexivity|]. split; [|reflexivity].
           intros [E|H]; [now apply Hne|now apply Hnot].
Qed.

Lemma count_occ_cons (t k : string) (ts : list string) :
  count_occ string_dec (t :: ts) k
  = ((if String.eqb t k then 1 else 0) + count_occ string_dec ts k)%nat.
Proof.
  simpl. destruct (string_dec t k) as [->|Hne].
  - now rewrite String.eqb_refl.
  - apply String.eqb_neq in Hne. now rewrite Hne.
Qed.

(** The items of a counter built on top of [acc]. *)
Lemma fold_bump (ts : list string) :
  forall acc, NoDup (keys acc) ->
    NoDup (keys (fold_left (fun counts t => bump t counts) ts acc))
    /\ (forall k, In k (keys (fold_left (fun counts t => bump t counts) ts acc))
                  <-> In k (keys acc) \/ In k ts)
    /\ (forall k c, In (k, c) (fold_left (fun counts t => bump t counts) ts acc) ->
          (exists c0, In (k, c0) acc /\ c = (c0 + count_occ string_dec ts k)%nat)
          \/ (~ In k (keys acc) /\ c = count_occ string_dec ts k /\ (1 <= c)%nat)).
Proof.
  induction ts as [|t ts IH]; intros acc Hnd.
  - simpl. split; [exact Hnd|]. split.
    + intros k. split; [now left|]. intros [H|[]]. exact H.
    + intros k c H. left. exists c. split; [exact H|lia].
  - cbn [fold_left].
    destruct (IH (bump t acc) (NoDup_keys_bump t acc Hnd)) as (IH1 & IH2 & IH3).
    split; [exact IH1|]. split.
    + intros k. rewrite IH2, keys_bump_In. simpl. intuition.
    + intros k c H. rewrite count_occ_cons.
      destruct (IH3 k c H) as [(c0 & Hin & ->)|(Hnot & -> & Hc)].
      * destruct (In_bump t k c0 acc Hnd Hin)
          as [[Hkt Hacc]|[[-> (c1 & Hacc & ->)]|[-> [Hnot ->]]]].
        -- left. exists c0. split; [exact Hacc|].
           apply not_eq_sym in Hkt. apply String.eqb_neq in Hkt. rewrite Hkt. lia.
        -- left. exists c1. split; [exact Hacc|]. rewrite String.eqb_refl. lia.
        -- right. split; [exact Hnot|]. rewrite String.eqb_refl. lia.
      * right. rewrite keys_bump_In in Hnot.
        assert (Hkt : t <> k) by (intros ->; apply Hnot; now right).
        apply String.eqb_neq in Hkt. rewrite Hkt.
        split; [intros Hk; apply Hnot; now left|]. split; [reflexivity|exact Hc].
Qed.

Lemma Counter_spec (topics : list string) :
  NoDup (keys (Counter topics))
  /\ (forall k, In k (keys (Counter topics)) <-> In k topics)
  /\ (forall k c, In (k, c) (Counter topics) ->
        c = count_occ string_dec topics k /\ (1 <= c)%nat).
Proof.
  destruct (fold_bump topics [] (NoDup_nil _)) as (H1 & H2 & H3).
  split; [exact H1|]. split.
  - intros k. rewrite (H2 k). simpl. intuition.
  - intros k c H. destruct (H3 k c H) as [(c0 & [] & _)|(_ & -> & Hc)]. now split.
Qed.

Lemma insert_desc_perm (x : string * nat) (l : list (string * nat)) :
  Permutation (insert_desc x l) (x :: l).
Proof.
  induction l as [|y rest IH]; simpl; [reflexivity|].
  destruct (snd y <? snd x)%nat; [reflexivity|].
  rewrite IH. apply perm_swap.
Qed.

Lemma fold_insert_perm (items acc : list (string * nat)) :
  Permutation (fold_left (fun sorted x => insert_desc x sorted) items acc)
              (acc ++ items).
Proof.
  revert acc. induction items as [|x items IH]; intros acc; simpl.
  - now rewrite app_nil_r.
  - rewrite IH, insert_desc_perm. apply Permutation_middle.
Qed.

Lemma sorted_desc_perm (items : list (string * nat)) :
  Permutation (sorted_desc items) items.
Proof. apply (fold_insert_perm items []). Qed.

Lemma insert_desc_descending (x : string * nat) (l : list (string * nat)) :
  descending (map snd l) -> descending (map snd (insert_desc x l)).
Proof.
  induction l as [|y rest IH]; intros H.
  - simpl. split; [intros v []|exact I].
  - cbn [insert_desc]. destruct H as [Hy Hrest].
    destruct (Nat.ltb_spec (snd y) (snd x)) as [Hlt|Hge].
    + cbn [map descending]. split; [|split; [exact Hy|exact Hrest]].
      intros v [<-|Hv]; [lia|]. specialize (Hy v Hv). lia.
    + cbn [map descending]. split; [|now apply IH].
      intros v Hv. apply in_map_iff in Hv. destruct Hv as (z & <- & Hz).
      apply (Permutation_in _ (insert_desc_perm x rest)) in Hz.
      destruct Hz as [<-|Hz]; [exact Hge|].
      apply Hy. now apply in_map.
Qed.

Lemma sorted_desc_descending (items : list (string * nat)) :
  descending (map snd (sorted_desc items)).
Proof.
  unfold sorted_desc.
  assert (H : forall acc, descending (map snd acc) ->
            descending (map snd (fold_left (fun sorted x => insert_desc x sorted)
                                   items acc))).
  { induction items as [|x items IH]; intros acc Hacc; [exact Hacc|].
    simpl. apply IH. now apply insert_desc_descending. }
  apply H. exact I.
Qed.

Lemma descending_app (l1 l2 : list nat) :
  descending (l1 ++ l2) ->
  descending l1 /\ forall a b, In a l1 -> In b l2 -> (b <= a)%nat.
Proof.
  induction l1 as [|v l1 IH]; intros H.
  - split; [exact I|]. intros a b [].
  - destruct H as [Hv Hrest]. destruct (IH Hrest) as [Hd Hab].
    split.
    + split; [|exact Hd]. intros v' Hv'. apply Hv. apply in_or_app. now left.
    + intros a b [<-|Ha] Hb.
      * apply Hv. apply in_or_app. now right.
      * now apply Hab.
Qed.

Lemma top_n_split (topics : list string) :
  exists others,
    Permutation (top_n_topics topics ++ others) (Counter topics)
    /\ descending (map snd (top_n_topics topics ++ others)).
Proof.
  unfold top_n_topics, most_common.
  exists (skipn (Nat.min (List.length (Counter topics)) 10) (sorted_desc (Counter topics))).
  rewrite firstn_skipn. split; [apply sorted_desc_perm|apply sorted_desc_descending].
Qed.

Lemma top_n_length (topics : list string) :
  List.length (top_n_topics topics) = Nat.min (List.length (Counter topics)) 10.
Proof.
  unfold top_n_topics, most_common. rewrite length_firstn.
  rewrite (Permutation_length (sorted_desc_perm (Counter topics))). lia.
Qed.

Lemma Counter_nonempty (t : string) (topics : list string) :
  Counter (t :: topics) <> [].
Proof.
  intros E. destruct (Counter_spec (t :: topics)) as (_ & Hk & _).
  specialize (proj2 (Hk t) (or_introl eq_refl)). now rewrite E.
Qed.

(** X20. For a list of topics that is not empty the function always
    draws a chart: the second guard never fires and no colour is missing
    from either theme.  The chart has between one and ten bars, a label
    for each, heights that do not go up from left to right, and the bar
    and background colours of the theme. *)
Theorem chart_of_topics (title : string -> string) (topics : list string)
    (is_dark_theme : bool) :
  topics <> [] ->
  exists fig,
    plot_discussion_topics title topics is_dark_theme = Pyplot fig
    /\ labels fig = map (fun item => title (fst item)) (top_n_topics topics)
    /\ values fig = map snd (top_n_topics topics)
    /\ descending (values fig)
    /\ (1 <= List.length (values fig) <= 10)%nat
    /\ List.length (labels fig) = List.length (values fig)
    /\ bar_color fig = (if is_dark_theme then "#0ea5e9" else "#007bff")
    /\ figure_facecolor fig = (if is_dark_theme then "#0d1117" else "#ffffff").
Proof.
  intros Hne. destruct topics as [|t topics]; [congruence|]. clear Hne.
  pose proof (top_n_length (t :: topics)) as Hlen.
  pose proof (Counter_nonempty t topics) as Hc.
  destruct (top_n_split (t :: topics)) as (others & _ & Hdesc).
  rewrite map_app in Hdesc. apply descending_app in Hdesc. destruct Hdesc as [Hdesc _].
  unfold plot_discussion_topics.
  destruct (top_n_topics (t :: topics)) as [|item top] eqn:Etop.
  - exfalso. simpl in Hlen. destruct (Counter (t :: topics)); [congruence|].
    simpl in Hlen. lia.
  - assert (Hbars : (1 <= List.length (item :: top) <= 10)%nat).
    { rewrite Hlen. destruct (Counter (t :: topics)); [congruence|simpl; lia]. }
    destruct is_dark_theme; cbn [get_theme_colors getitem String.eqb Ascii.eqb Bool.eqb];
      (eexists; split; [reflexivity|]; cbn [labels values bar_color figure_facecolor];
       rewrite !length_map;
       repeat split; try reflexivity; try exact Hdesc; apply Hdesc || apply Hbars).
Qed.

Lemma chart_of_topics_witness :
  exists fig,
    plot_discussion_topics (fun s => s)
      ["budget"; "design review"; "budget"; "hiring"; "budget"; "hiring"] true
    = Pyplot fig
    /\ labels fig = ["budget"; "hiring"; "design review"]
    /\ values fig = [3; 2; 1]%nat.
Proof.
  destruct (chart_of_topics (fun s => s)
              ["budget"; "design review"; "budget"; "hiring"; "budget"; "hiring"] true)
    as (fig & Hplot & Hl & Hv & _); [discriminate|].
  exists fig. split; [exact Hplot|]. split; [exact Hl|exact Hv].
Defined.

(** X21. The bars are the most common topics with their true counts:
    every bar stands for a topic of the list and is as high as the number
    of its occurrences, no topic has two bars, a topic without a bar
    occurs at most as often as any topic with one, and with at most ten
    distinct topics every topic has a bar. *)
Theorem top_topics_counts (topics : list string) :
  (forall t c, In (t, c) (top_n_topics topics) ->
               In t topics /\ c = count_occ string_dec topics t /\ (1 <= c)%nat)
  /\ NoDup (map fst (top_n_topics topics))
  /\ (forall t, In t topics ->
        In t (map fst (top_n_topics topics))
        \/ forall v, In v (map snd (top_n_topics topics)) ->
                     (count_occ string_dec topics t <= v)%nat)
  /\ ((List.length (nodup string_dec topics) <= 10)%nat ->
      forall t, In t topics -> In t (map fst (top_n_topics topics))).
Proof.
  destruct (Counter_spec topics) as (Hnd & Hkeys & Hcount).
  destruct (top_n_split topics) as (others & Hperm & Hdesc).
  assert (Hin : forall t, In t topics ->
            exists c, In (t, c) (top_n_topics topics ++ others)
                      /\ c = count_occ string_dec topics t).
  { intros t Ht. apply Hkeys in Ht. unfold keys in Ht. apply in_map_iff in Ht.
    destruct Ht as ([k c] & Hk & Hkc). simpl in Hk. subst k.
    exists c. split; [now apply (Permutation_in _ (Permutation_sym Hperm))|].
    now apply Hcount. }
  split; [|split; [|split]].
  - intros t c H.
    assert (Hc : In (t, c) (Counter topics)).
    { apply (Permutation_in _ Hperm). apply in_or_app. now left. }
    destruct (Hcount t c Hc) as [E Hpos]. split; [|now split].
    apply Hkeys. unfold keys. apply in_map_iff. now exists (t, c).
  - apply (Permutation_map fst) in Hperm. apply Permutation_sym in Hperm.
    apply (Permutation_NoDup Hperm) in Hnd. rewrite map_app in Hnd.
    now apply NoDup_app_remove_r in Hnd.
  - intros t Ht. destruct (Hin t Ht) as (c & Hc & ->).
    apply in_app_or in Hc. destruct Hc as [Hc|Hc].
    + left. apply in_map_iff. now exists (t, count_occ string_dec topics t).
    + right. intros v Hv. rewrite map_app in Hdesc.
      apply descending_app in Hdesc. destruct Hdesc as [_ Hab].
      apply (Hab v _ Hv). apply in_map_iff.
      now exists (t, count_occ string_dec topics t).
  - intros Hfew t Ht.
    assert (Hlen : List.length (Counter topics) = List.length (nodup string_dec topics)).
    { rewrite <- (length_map fst (Counter topics)). apply Permutation_length.
      apply NoDup_Permutation; [exact Hnd|apply NoDup_nodup|].
      intros k. rewrite nodup_In. apply Hkeys. }
    pose proof (top_n_length topics) as Htop.
    pose proof (Permutation_length Hperm) as Hall. rewrite length_app in Hall.
    destruct others as [|o others]; [|simpl in Hall; lia].
    destruct (Hin t Ht) as (c & Hc & _). rewrite app_nil_r in Hc.
    apply in_map_iff. now exists (t, c).
Qed.

End ChartFacts.

(** ** The completion client: time spent sleeping *)

Module ClientSleep.
Import Py Client ClientFacts SleepTime.

Lemma total_backoff (n : nat) (d : Q) :
  (total (backoff n d) == d * (pow2 n - 1))%Q.
Proof.
  revert d. induction n as [|n IH]; intros d; simpl.
  - ring.
  - rewrite IH. ring.
Qed.

Lemma Qmult_le_l_nonneg (d x y : Q) :
  (0 <= d)%Q -> (x <= y)%Q -> (d * x <= d * y)%Q.
Proof.
  intros Hd H. rewrite (Qmult_comm d x), (Qmult_comm d y).
  now apply Qmult_le_compat_r.
Qed.

Lemma pow2_ge_1 (n : nat) : (1 <= pow2 n)%Q.
Proof.
  induction n as [|n IH]; simpl; [apply Qle_refl|].
  apply Qle_trans with (1 * 1)%Q; [apply Qle_refl|].
  apply Qmult_le_compat_nonneg; split; try discriminate; exact IH.
Qed.

Lemma pow2_mono (n m : nat) : (n <= m)%nat -> (pow2 n <= pow2 m)%Q.
Proof.
  induction 1 as [|m _ IH]; [apply Qle_refl|].
  apply Qle_trans with (pow2 m); [exact IH|]. simpl.
  pose proof (pow2_ge_1 m) as H.
  apply Qle_trans with (1 * pow2 m)%Q.
  - rewrite Qmult_1_l. apply Qle_refl.
  - apply Qmult_le_compat_r; [discriminate|].
    apply Qle_trans with 1%Q; [discriminate|exact H].
Qed.

(** X22. With an initial delay [d] that is not negative, one call of the
    client sleeps, all sleeps together, at most [d * (2^(max_retries-1) - 1)],
    whatever the service does: 63 times the initial delay with the
    default of seven retries. *)
Theorem client_sleep_bounded (service : Type)
    (generate_content : service -> string -> outcome * service)
    (prompt : string) (max_retries : Z) (initial_delay : Q)
    (w w' : world service) (r : result string) :
  Qle_bool 0 initial_delay = true ->
  make_gemini_call_with_retry generate_content prompt max_retries initial_delay w
    = Some (r, w') ->
  exists new,
    trace w' = trace w ++ new
    /\ (total (sleeps_of new)
        <= initial_delay * (pow2 (Z.to_nat max_retries - 1) - 1))%Q
    /\ (max_retries = default_max_retries ->
        (total (sleeps_of new) <= initial_delay * 63)%Q).
Proof.
  intros Hd H. apply Qle_bool_iff in Hd.
  assert (Hbound : forall n, (n <= Z.to_nat max_retries - 1)%nat ->
            (total (backoff n initial_delay)
             <= initial_delay * (pow2 (Z.to_nat max_retries - 1) - 1))%Q).
  { intros n Hn. rewrite total_backoff.
    apply Qmult_le_l_nonneg; [exact Hd|].
    apply Qplus_le_l. now apply pow2_mono. }
  assert (Hmain : exists new,
            trace w' = trace w ++ new
            /\ (total (sleeps_of new)
                <= initial_delay * (pow2 (Z.to_nat max_retries - 1) - 1))%Q).
  { unfold make_gemini_call_with_retry in H.
    destruct (Z.ltb_spec 0 max_retries) as [Hpos|Hneg].
    - apply ClientRuns.retry_loop_shape in H; [|exact Hpos].
      destruct H as (n & Hn & Htr & _).
      eexists. split; [exact Htr|].
      rewrite sleeps_of_app, sleeps_of_backoff_trace. simpl sleeps_of.
      rewrite app_nil_r. apply Hbound. lia.
    - exists []. rewrite app_nil_r.
      assert (Hw : w' = w).
      { destruct (Z.to_nat max_retries); simpl in H;
          destruct (Z.ltb_spec 0 max_retries); try lia;
          now injection H as _ <-. }
      subst w'. split; [reflexivity|]. apply (Hbound O). lia. }
  destruct Hmain as (new & Htr & Hle). exists new.
  split; [exact Htr|]. split; [exact Hle|].
  intros ->. eapply Qle_trans; [exact Hle|].
  apply Qmult_le_l_nonneg; [exact Hd|]. vm_compute. discriminate.
Qed.

Lemma client_sleep_bounded_witness :
  exists new,
    new = [Generate "Summarize." Stub.quota; Sleep 1;
           Generate "Summarize." Stub.quota; Sleep 2;
           Generate "Summarize." Stub.quota]
    /\ (total (sleeps_of new) <= 1 * (pow2 (Z.to_nat 3 - 1) - 1))%Q.
Proof.
  destruct (client_sleep_bounded nat Stub.always_limited "Summarize." 3 1
              (start 0%nat)
              {| model_instance := 3%nat;
                 trace := [Generate "Summarize." Stub.quota; Sleep 1;
                           Generate "Summarize." Stub.quota; Sleep 2;
                           Generate "Summarize." Stub.quota] |}
              (Returns "Failed to get response after 3 retries due to quota/rate limit: 429 quota exceeded")
              eq_refl eq_refl)
    as (new & Htr & Hle & _).
  exists new. simpl in Htr. subst new. split; [reflexivity|exact Hle].
Defined.

End ClientSleep.
